(** * ingest_disney_dataset.py: a shallow embedding and its properties

    The script discovers OBJ files of a dataset, imports each one into a
    fresh scene of the host 3D application, rebuilds the transform
    hierarchy described by the JSON sidecar of the OBJ file and exports
    the result as an Alembic cache.

    Layout of this development:
    - [PyStr]: the Python string and [os.path] functions the script calls
      ([str.replace], [str.split], [str.join], [os.path.join],
      [os.path.dirname], [os.path.basename], [sorted]), written out on
      [string];
    - [Host]: the state of the host application and of the file system
      (scene graph, existing directories, log of issued commands), the
      state-and-exception monad the script runs in, and the host commands;
    - [Script]: the four functions of the script and its top-level loop,
      statement by statement;
    - the properties.

    Modelling assumptions on the host, which is not part of the
    repository.  A scene is a finite map from node names to the name of
    the parent (or none for a child of the world); node names identify
    nodes, so a node object is represented by its name.  Looking a name up
    with [PyNode] raises exactly when the scene has no node of that name.
    [createNode] honours the requested name, [setParent] is accepted by the
    host, and the commands [newFile], [importFile], [select], [AbcExport]
    and [print] succeed.  A directory is identified by the string of its
    path; the empty path never exists, [os.makedirs] raises on it, and on
    any other path it succeeds.  What is read from the file system
    ([os.listdir], [glob.glob], the parsed sidecar, the nodes an OBJ file
    holds) is given by an environment record that the script never
    changes. *)

From Stdlib Require Import Ascii String List Arith Lia Permutation Sorted.
From stdpp Require Import base gmap strings sorting.

Import ListNotations.
Local Open Scope string_scope.
Local Open Scope list_scope.

(** ** Python strings and paths *)
Module PyStr.

(** [old] followed by anything: [s.startswith(old)]. *)
Definition startswith (s old : string) : bool := String.prefix old s.

(** [s.endswith(c)] for a one-character suffix. *)
Fixpoint endswith_char (s : string) (c : ascii) : bool :=
  match s with
  | EmptyString => false
  | String a EmptyString => Ascii.eqb a c
  | String _ s' => endswith_char s' c
  end.

(** The scan of [str.replace(old, new)] for a non-empty [old]: left to
    right, non-overlapping.  [skip] counts the characters of a match
    that are still to be dropped. *)
Fixpoint replace_scan (old new : string) (skip : nat) (s : string) : string :=
  match s with
  | EmptyString => EmptyString
  | String c s' =>
      match skip with
      | S k => replace_scan old new k s'
      | O =>
          if String.prefix old s
          then new +:+ replace_scan old new (String.length old - 1) s'
          else String c (replace_scan old new 0 s')
      end
  end.

(** With an empty [old], Python puts [new] before every character and
    at the end. *)
Fixpoint replace_empty (new s : string) : string :=
  match s with
  | EmptyString => new
  | String c s' => new +:+ String c (replace_empty new s')
  end.

(** [s.replace(old, new)] *)
Definition replace (s old new : string) : string :=
  match old with
  | EmptyString => replace_empty new s
  | _ => replace_scan old new 0 s
  end.

(** [s.split(sep)] for a one-character separator: never the empty list. *)
Fixpoint split (s : string) (sep : ascii) : list string :=
  match s with
  | EmptyString => [EmptyString]
  | String c s' =>
      if Ascii.eqb c sep then EmptyString :: split s' sep
      else match split s' sep with
           | [] => [String c EmptyString]
           | w :: ws => String c w :: ws
           end
  end.

(** [sep.join(words)] *)
Definition join (sep : string) (words : list string) : string :=
  String.concat sep words.

(** [s.rstrip(c)] for one character. *)
Fixpoint rstrip (s : string) (c : ascii) : string :=
  match s with
  | EmptyString => EmptyString
  | String a s' =>
      match rstrip s' c with
      | EmptyString => if Ascii.eqb a c then EmptyString else String a EmptyString
      | r => String a r
      end
  end.

(** [c * n] *)
Fixpoint times (c : ascii) (n : nat) : string :=
  match n with
  | O => EmptyString
  | S k => String c (times c k)
  end.

(** [p[:i], p[i:]] for [i = p.rfind('/') + 1]. *)
Fixpoint cut_last_slash (p : string) : string * string :=
  match p with
  | EmptyString => (EmptyString, EmptyString)
  | String c p' =>
      let (head, tail) := cut_last_slash p' in
      match head with
      | EmptyString =>
          if Ascii.eqb c "/" then (String c EmptyString, p')
          else (EmptyString, String c tail)
      | _ => (String c head, tail)
      end
  end.

(** [posixpath.split] *)
Definition path_split (p : string) : string * string :=
  let (head, tail) := cut_last_slash p in
  if negb (head =? "")%string
     && negb (head =? times "/" (String.length head))%string
  then (rstrip head "/", tail)
  else (head, tail).

(** [os.path.dirname] *)
Definition dirname (p : string) : string := fst (path_split p).

(** [os.path.basename] *)
Definition basename (p : string) : string := snd (cut_last_slash p).

(** [os.path.join(a, b)] *)
Definition path_join (a b : string) : string :=
  if startswith b "/" then b
  else if (a =? "")%string || endswith_char a "/" then a +:+ b
  else a +:+ "/" +:+ b.

(** [sorted(l)] on strings: Python compares them character by character,
    which is [String.le]. *)
Definition sorted (l : list string) : list string := merge_sort String.le l.

End PyStr.

(** ** The host application and the file system *)
Module Host.

(** Exceptions the script can meet.  [UnboundLocalError] is Python's
    subclass of [NameError] for a local variable read before assignment. *)
Inductive exn : Type :=
  | IOError | OSError | ValueError | AttributeError | IndexError
  | UnboundLocalError | MayaNodeError.

Definition is_NameError (e : exn) : bool :=
  match e with UnboundLocalError => true | _ => false end.

(** What [json.load] can return, as far as the script tells values
    apart: an object, given by its items in the order [iteritems] yields
    them, or something else; the value of an item is a string or
    something else. *)
Inductive jvalue : Type :=
  | JString (s : string)
  | JNotString.

Inductive json : Type :=
  | JObject (items : list (string * jvalue))
  | JNotObject.

(** What the script reads and never writes. *)
Record env : Type := {
  listdir : string -> exn + list string;   (* os.listdir *)
  glob : string -> list string;            (* glob.glob *)
  load_json : string -> exn + json;        (* open(..., 'r') and json.load *)
  obj_nodes : string -> list string        (* nodes an OBJ file holds *)
}.

(** Commands issued to the host and to the operating system. *)
Inductive event : Type :=
  | EvNewFile
  | EvImportFile (f : string)
  | EvOpen (f : string)
  | EvPyNode (n : string) (found : bool)
  | EvCreateNode (n : string)
  | EvSetParent (child parent : string)
  | EvMakeDirs (d : string)          (* os.makedirs(d) made the directory *)
  | EvMakeDirsError (d : string)     (* os.makedirs(d) raised *)
  | EvSelect (n : string)
  | EvAbcExport (j : string)
  | EvPrint (msg : string).

Record world : Type := {
  scene : gmap string (option string);   (* node name to parent *)
  dirs : gset string;                    (* directories that exist *)
  log : list event                       (* commands so far, oldest first *)
}.

Definition with_scene (w : world) (s : gmap string (option string)) : world :=
  {| scene := s; dirs := dirs w; log := log w |}.
Definition with_dirs (w : world) (d : gset string) : world :=
  {| scene := scene w; dirs := d; log := log w |}.
Definition emit (e : event) (w : world) : world :=
  {| scene := scene w; dirs := dirs w; log := log w ++ [e] |}.

(** State and exceptions: what the host holds survives a raise. *)
Definition M (A : Type) : Type := world -> (exn + A) * world.

Definition ret {A} (a : A) : M A := fun w => (inr a, w).
Definition raise {A} (e : exn) : M A := fun w => (inl e, w).
Definition bind {A B} (m : M A) (k : A -> M B) : M B :=
  fun w => match m w with
           | (inr a, w') => k a w'
           | (inl e, w') => (inl e, w')
           end.
(** [try: m  except Exception: h] *)
Definition try_except {A} (m : M A) (h : M A) : M A :=
  fun w => match m w with
           | (inr a, w') => (inr a, w')
           | (inl _, w') => h w'
           end.
Definition tell (e : event) : M unit := fun w => (inr tt, emit e w).

Declare Scope host_scope.
Delimit Scope host_scope with host.
Notation "'let*' x := m 'in' k" := (bind m (fun x => k))
  (at level 10, x name, m at level 100, k at level 200) : host_scope.
Local Open Scope host_scope.

(** [for x in xs: body], threading the local variables [S]. *)
Fixpoint for_each {A S} (xs : list A) (body : A -> S -> M S) (s : S) : M S :=
  match xs with
  | [] => ret s
  | x :: xs' => let* s' := body x s in for_each xs' body s'
  end.

(** A node object stands for the node of that name. *)
Definition node : Type := string.

(** [pm.newFile(f=True)]: a new, empty scene. *)
Definition newFile : M unit :=
  fun w => (inr tt, emit EvNewFile (with_scene w ∅)).

(** [pm.importFile(f, type='OBJ', ...)]: the nodes of the file join the
    scene under the world. *)
Definition importFile (E : env) (f : string) : M unit :=
  fun w =>
    (inr tt,
     emit (EvImportFile f)
       (with_scene w (foldr (fun n s => <[n := None]> s) (scene w) (obj_nodes E f)))).

(** [pm.PyNode(name)] *)
Definition PyNode (name : string) : M node :=
  fun w => match scene w !! name with
           | Some _ => (inr name, emit (EvPyNode name true) w)
           | None => (inl MayaNodeError, emit (EvPyNode name false) w)
           end.

(** [pm.createNode('transform', n=name)] *)
Definition createNode (name : string) : M node :=
  fun w => (inr name, emit (EvCreateNode name) (with_scene w (<[name := None]> (scene w)))).

(** [child.setParent(parent)] *)
Definition setParent (child parent : node) : M unit :=
  fun w => (inr tt,
            emit (EvSetParent child parent)
              (with_scene w (<[child := Some parent]> (scene w)))).

(** [pm.select(n)] *)
Definition select (n : node) : M unit := tell (EvSelect n).

(** The names from the top of the DAG down to [n]; [fuel] bounds the
    walk up the parents. *)
Fixpoint dag_path (s : gmap string (option string)) (fuel : nat) (n : string)
  : list string :=
  match fuel with
  | O => [n]
  | S k => match s !! n with
           | Some (Some p) => dag_path s k p ++ [n]
           | _ => [n]
           end
  end.

(** [n.fullPath()]: the DAG path, every name led by a pipe. *)
Definition fullPath (n : node) : M string :=
  fun w => (inr (String.concat "" (map (fun x => "|" +:+ x) (dag_path (scene w) (size (scene w)) n))), w).

(** [pm.AbcExport(j=job)] *)
Definition AbcExport (job : string) : M unit := tell (EvAbcExport job).

(** [os.path.exists(d)] *)
Definition path_exists (d : string) : M bool :=
  fun w => (inr (negb (d =? "")%string && bool_decide (d ∈ dirs w)), w).

(** The directory [d] and the directories above it. *)
Fixpoint up_dirs (fuel : nat) (d : string) : list string :=
  match fuel with
  | O => [d]
  | S k => let up := PyStr.dirname d in
           if (up =? d)%string || (up =? "")%string then [d]
           else d :: up_dirs k up
  end.

(** [os.makedirs(d)]: on the empty path the call raises; otherwise [d]
    exists afterwards, with the directories above. *)
Definition makedirs (d : string) : M unit :=
  fun w =>
    if (d =? "")%string then (inl OSError, emit (EvMakeDirsError d) w)
    else (inr tt,
          emit (EvMakeDirs d)
            (with_dirs w (list_to_set (up_dirs (String.length d) d) ∪ dirs w))).

(** [print msg] *)
Definition print (msg : string) : M unit := tell (EvPrint msg).

(** [with open(f, 'r') as h: json.load(h)] *)
Definition json_load (E : env) (f : string) : M json :=
  fun w => match load_json E f with
           | inr j => (inr j, emit (EvOpen f) w)
           | inl e => (inl e, emit (EvOpen f) w)
           end.

End Host.

(** ** The script *)
Module Script.
Import Host.
Local Open Scope host_scope.

Section WithEnv.
Variable E : env.

(** [get_asset_objs(obj_dir)] *)
Definition get_asset_objs (obj_dir : string) : M (list string) :=
  let obj_files := [] in
  match listdir E obj_dir with
  | inl e => raise e
  | inr assets =>
      for_each assets
        (fun asset obj_files =>
           let asset_dir := PyStr.path_join obj_dir asset in
           let archive_dir := PyStr.path_join asset_dir "archives" in
           let asset_objs := glob E (PyStr.path_join asset_dir "*.obj") in
           let archive_objs := glob E (PyStr.path_join archive_dir "*.obj") in
           ret (obj_files ++ PyStr.sorted (asset_objs ++ archive_objs)))
        obj_files
  end.

(** [import_asset_obj(obj_file)] *)
Definition import_asset_obj (obj_file : string) : M string :=
  let* _ := newFile in
  let* _ := importFile E obj_file in
  ret obj_file.

(** The local variables of [rebuild_asset_hierarchy] that outlive one
    turn of its loop; [None] is an unbound name. *)
Inductive pyval : Type :=
  | PyNone
  | PyNodeObj (n : node).

Record locals : Type := {
  model_node : option pyval;
  root_par_node : option node
}.

Definition unbound : locals := {| model_node := None; root_par_node := None |}.
Definition set_model_node (loc : locals) (v : pyval) : locals :=
  {| model_node := Some v; root_par_node := root_par_node loc |}.
Definition set_root_par_node (loc : locals) (n : node) : locals :=
  {| model_node := model_node loc; root_par_node := Some n |}.

(** [hier.split('|')]: only a string has the method. *)
Definition str_split (hier : jvalue) (sep : ascii) : M (list string) :=
  match hier with
  | JString s => ret (PyStr.split s sep)
  | JNotString => raise AttributeError
  end.

(** [hier_data.iteritems()]: only an object has the method. *)
Definition iteritems (hier_data : json) : M (list (string * jvalue)) :=
  match hier_data with
  | JObject items => ret items
  | JNotObject => raise AttributeError
  end.

(** [l.pop(0)], keeping the list that is left. *)
Definition pop0 {A} (l : list A) : M (list A) :=
  match l with
  | [] => raise IndexError
  | _ :: l' => ret l'
  end.

(** [l[i]]: a negative index counts from the end. *)
Definition py_index {A} (l : list A) (i : Z) : M A :=
  let n := Z.of_nat (length l) in
  let j := if (i <? 0)%Z then (i + n)%Z else i in
  if (j <? 0)%Z then raise IndexError
  else match nth_error l (Z.to_nat j) with
       | Some x => ret x
       | None => raise IndexError
       end.

(** [list(enumerate(l))] *)
Definition enumerate {A} (l : list A) : list (Z * A) :=
  combine (map Z.of_nat (seq 0 (length l))) l.

(** [try: node = pm.PyNode(name)]
    [except Exception: node = pm.createNode('transform', n=name)] *)
Definition node_or_create (name : string) : M node :=
  try_except (PyNode name) (createNode name).

Definition model_missing : string :=
  "Model is missing! First import it into your scene.".

(** One turn of the inner loop of [rebuild_asset_hierarchy]. *)
Definition reparent_elem (hier_split : list string) (ie : Z * string) (_ : unit)
  : M unit :=
  let (index, hier_elem) := ie in
  if negb (index =? 0)%Z then
    let* elem_par := py_index hier_split (index - 1) in
    let* hier_elem_node := node_or_create hier_elem in
    let* elem_par_node := node_or_create elem_par in
    setParent hier_elem_node elem_par_node
  else ret tt.

(** One turn of the outer loop of [rebuild_asset_hierarchy]. *)
Definition rebuild_entry (mh : string * jvalue) (loc : locals) : M locals :=
  let (model, hier) := mh in
  let* hier_split := str_split hier "|" in
  let* hier_split := pop0 hier_split in
  let* model_par := py_index hier_split (-1) in
  let* root_par := py_index hier_split 0 in
  let* _ := for_each (rev (enumerate hier_split)) (reparent_elem hier_split) tt in
  let* loc :=
    try_except
      (let* model_node := PyNode model in
       let* model_par_node := PyNode model_par in
       let* _ := setParent model_node model_par_node in
       ret (set_model_node loc (PyNodeObj model_node)))
      (let* _ := print model_missing in
       ret (set_model_node loc PyNone)) in
  let* root_par_node := PyNode root_par in
  ret (set_root_par_node loc root_par_node).

(** [rebuild_asset_hierarchy(obj_file)] *)
Definition rebuild_asset_hierarchy (obj_file : string) : M node :=
  let hier_json := PyStr.replace obj_file ".obj" ".hier" in
  let* hier_data := json_load E hier_json in
  let* items := iteritems hier_data in
  let* loc := for_each items rebuild_entry unbound in
  match root_par_node loc with
  | Some n => ret n
  | None => raise UnboundLocalError
  end.

Definition abc_flags : list string :=
  ["-frameRange 1 1"; "-uvWrite"; "-worldSpace"; "-writeUVSets";
   "-dataFormat ogawa"].

(** [export_asset_abc(obj_file, root_node)] *)
Definition export_asset_abc (obj_file : string) (root_node : node) : M string :=
  let obj_dir := PyStr.dirname obj_file in
  let obj_name := PyStr.basename obj_file in
  let abc_dir := PyStr.replace obj_dir "obj" "abc" in
  let abc_name := PyStr.replace obj_name ".obj" ".abc" in
  let abc_file := PyStr.path_join abc_dir abc_name in
  let* there := path_exists abc_dir in
  let* _ := if negb there then makedirs abc_dir else ret tt in
  let* _ := select root_node in
  let* root_node_name := fullPath root_node in
  let abc_args := abc_flags ++ ["-root " +:+ root_node_name;
                                "-file " +:+ abc_file] in
  let abc_arg := PyStr.join " " abc_args in
  let* _ := AbcExport abc_arg in
  ret abc_file.

Definition root_dir : string :=
  "/home/sshrestha/workspace/library/disney_datasets/island".

(** The body of the top-level loop. *)
Definition ingest (obj_file : string) (_ : unit) : M unit :=
  let* _ := import_asset_obj obj_file in
  let* root_node := rebuild_asset_hierarchy obj_file in
  let* abc_file := export_asset_abc obj_file root_node in
  print ("Rebuilt and exported abc file to" +:+ " " +:+ abc_file).

(** The statements at the top level of the module. *)
Definition main : M unit :=
  let obj_dir := PyStr.path_join root_dir "obj" in
  let* obj_files := get_asset_objs obj_dir in
  for_each obj_files ingest tt.

End WithEnv.
End Script.

(** ** The vocabulary of the properties *)
Module Spec.
Import Host Script.

(** The OBJ files of one asset: its own and those of its archives. *)
Definition asset_globs (E : env) (obj_dir asset : string) : list string :=
  glob E (PyStr.path_join (PyStr.path_join obj_dir asset) "*.obj")
  ++ glob E (PyStr.path_join
               (PyStr.path_join (PyStr.path_join obj_dir asset) "archives")
               "*.obj").

(** What discovery is to return: per listed entry, the sorted OBJ files,
    one entry after the other. *)
Definition discovered (E : env) (obj_dir : string) (assets : list string) : list string :=
  concat (map (fun asset => PyStr.sorted (asset_globs E obj_dir asset)) assets).

(** The rebuilding in words, as transformations of the world.  [ensure n]:
    look the node [n] up and create a transform of that name when the
    lookup fails. *)
Definition ensure (n : string) (w : world) : world :=
  match scene w !! n with
  | Some _ => emit (EvPyNode n true) w
  | None =>
      emit (EvCreateNode n)
        (with_scene (emit (EvPyNode n false) w) (<[n := None]> (scene w)))
  end.

(** [reparent c p]: set the parent of [c] to [p]. *)
Definition reparent (c p : string) (w : world) : world :=
  emit (EvSetParent c p) (with_scene w (<[c := Some p]> (scene w))).

(** Every element of the path after [prev] gets the element before it
    as parent, the deepest one first. *)
Fixpoint link_chain (prev : string) (rest : list string) (w : world) : world :=
  match rest with
  | [] => w
  | e :: rest' => reparent e prev (ensure prev (ensure e (link_chain e rest' w)))
  end.

(** [enumerate], from a given first index. *)
Definition enumerate_from (k : nat) (l : list string) : list (Z * string) :=
  combine (map Z.of_nat (seq k (length l))) l.

(** The scene has a node named [n]. *)
Definition present (n : string) (w : world) : Prop := is_Some (scene w !! n).

(** The last element of the path [e0 :: rest]. *)
Definition last_elem (e0 : string) (rest : list string) : string :=
  List.last rest e0.

(** What the [try] block on the model node does, from the world [w1]
    the inner loop left. *)
Definition attach (model parent : string) (loc : locals) (w1 : world)
  : locals * world :=
  match scene w1 !! model, scene w1 !! parent with
  | Some _, Some _ =>
      (set_model_node loc (PyNodeObj model),
       reparent model parent
         (emit (EvPyNode parent true) (emit (EvPyNode model true) w1)))
  | Some _, None =>
      (set_model_node loc PyNone,
       emit (EvPrint model_missing)
         (emit (EvPyNode parent false) (emit (EvPyNode model true) w1)))
  | None, _ =>
      (set_model_node loc PyNone,
       emit (EvPrint model_missing) (emit (EvPyNode model false) w1))
  end.

(** The path of the sidecar, as the script computes it. *)
Definition hier_path (obj_file : string) : string :=
  PyStr.replace obj_file ".obj" ".hier".

(** The directory of the cache: the directory part of the OBJ path with
    [obj] replaced by [abc]. *)
Definition abc_dir_of (obj_file : string) : string :=
  PyStr.replace (PyStr.dirname obj_file) "obj" "abc".

(** The path of the cache: in that directory, the file name with [.obj]
    replaced by [.abc]. *)
Definition abc_file_of (obj_file : string) : string :=
  PyStr.path_join (abc_dir_of obj_file)
    (PyStr.replace (PyStr.basename obj_file) ".obj" ".abc").

(** The flags every export job starts with. *)
Definition exporter_flags : string :=
  "-frameRange 1 1 -uvWrite -worldSpace -writeUVSets -dataFormat ogawa".

(** The jobs given to the Alembic exporter, in a log. *)
Definition abc_jobs (l : list event) : list string :=
  flat_map (fun e => match e with EvAbcExport j => [j] | _ => [] end) l.

(** The directories [os.makedirs] was called on, in a log. *)
Definition makedirs_calls (l : list event) : list string :=
  flat_map (fun e => match e with EvMakeDirs d => [d] | _ => [] end) l.

(** What [n.fullPath()] gives in the world [w]. *)
Definition full_path_in (w : world) (n : node) : string :=
  match fst (fullPath n w) with
  | inr p => p
  | inl _ => EmptyString
  end.

(** The job string of an export. *)
Definition export_job (root_path abc_file : string) : string :=
  exporter_flags +:+ " -root " +:+ root_path +:+ " -file " +:+ abc_file.

(** The world once the directory [d] is there: as it was when [d]
    exists, after [os.makedirs(d)] otherwise. *)
Definition dir_made (d : string) (w : world) : world :=
  if bool_decide (d ∈ dirs w) then w
  else emit (EvMakeDirs d)
         (with_dirs w (list_to_set (up_dirs (String.length d) d) ∪ dirs w)).

(** Every run of [m] adds to the log, and what it adds satisfies [P]. *)
Definition emits {A} (P : event -> Prop) (m : M A) : Prop :=
  forall w, exists tr, log (snd (m w)) = log w ++ tr /\ Forall P tr.

(** The commands of the hierarchy loops: lookups, creations,
    re-parentings and the message about a missing model. *)
Definition node_event (e : event) : Prop :=
  match e with
  | EvPyNode _ _ | EvCreateNode _ | EvSetParent _ _ => True
  | EvPrint msg => msg = model_missing
  | _ => False
  end.

(** What each stage of one turn of the top-level loop adds to the log. *)
Definition import_events (obj_file : string) : list event :=
  [EvNewFile; EvImportFile obj_file].

Definition rebuild_events (obj_file : string) (tr : list event) : Prop :=
  exists mid, tr = EvOpen (hier_path obj_file) :: mid /\ Forall node_event mid.

Definition export_events (obj_file : string) (tr : list event) : Prop :=
  exists mk root_node job,
    tr = mk ++ [EvSelect root_node; EvAbcExport job]
    /\ (mk = [] \/ mk = [EvMakeDirs (abc_dir_of obj_file)]).

Definition report_events (obj_file : string) : list event :=
  [EvPrint ("Rebuilt and exported abc file to " +:+ abc_file_of obj_file)].

(** The log of the top-level loop over the given OBJ files, with its
    outcome: file after file, the import, then the rebuilding, then the
    export and the report; a rebuilding that raises ends the loop, and so
    does an export that cannot make its directory. *)
Inductive loop_log : list string -> exn + unit -> list event -> Prop :=
  | loop_done : loop_log [] (inr tt) []
  | loop_next obj_file rest r t2 t3 tr :
      rebuild_events obj_file t2 ->
      export_events obj_file t3 ->
      loop_log rest r tr ->
      loop_log (obj_file :: rest) r
        (import_events obj_file ++ t2 ++ t3 ++ report_events obj_file ++ tr)
  | loop_abort obj_file rest e t2 :
      rebuild_events obj_file t2 ->
      loop_log (obj_file :: rest) (inl e) (import_events obj_file ++ t2)
  | loop_abort_export obj_file rest t2 :
      rebuild_events obj_file t2 ->
      abc_dir_of obj_file = EmptyString ->
      loop_log (obj_file :: rest) (inl OSError)
        (import_events obj_file ++ t2 ++ [EvMakeDirsError EmptyString]).

(** The script in closed form, stage by stage.  The world the import
    leaves: a new scene with the nodes of the OBJ file. *)
Definition imported (E : env) (obj_file : string) (w : world) : world :=
  {| scene := foldr (fun n s => <[n := None]> s) ∅ (obj_nodes E obj_file);
     dirs := dirs w;
     log := log w ++ import_events obj_file |}.

(** The turns of the rebuilding loop over the items of the sidecar: the
    chain of each path is linked, the model attached, the first path
    element looked up; the first turn that raises ends the loop. *)
Fixpoint rebuilt_items (items : list (string * jvalue)) (loc : locals) (w : world)
  : (exn + locals) * world :=
  match items with
  | [] => (inr loc, w)
  | (model, JNotString) :: _ => (inl AttributeError, w)
  | (model, JString s) :: items' =>
      match tl (PyStr.split s "|") with
      | [] => (inl IndexError, w)
      | e0 :: rest =>
          let (loc1, w2) :=
            attach model (last_elem e0 rest) loc (link_chain e0 rest w) in
          match scene w2 !! e0 with
          | Some _ =>
              rebuilt_items items' (set_root_par_node loc1 e0)
                (emit (EvPyNode e0 true) w2)
          | None => (inl MayaNodeError, emit (EvPyNode e0 false) w2)
          end
      end
  end.

(** The rebuilding of one file: the sidecar is opened and parsed, its
    items are handled, the root bound in the last turn is returned. *)
Definition rebuilt_file (E : env) (obj_file : string) (w : world)
  : (exn + node) * world :=
  let w0 := emit (EvOpen (hier_path obj_file)) w in
  match load_json E (hier_path obj_file) with
  | inl e => (inl e, w0)
  | inr JNotObject => (inl AttributeError, w0)
  | inr (JObject items) =>
      match rebuilt_items items unbound w0 with
      | (inl e, w1) => (inl e, w1)
      | (inr loc, w1) =>
          match root_par_node loc with
          | Some n => (inr n, w1)
          | None => (inl UnboundLocalError, w1)
          end
      end
  end.

(** The export of one file: without a directory to write to it raises
    in [os.makedirs]; otherwise the directory is there or made, the root
    is selected and the job is given to the exporter. *)
Definition exported_file (obj_file : string) (root_node : node) (w : world)
  : (exn + string) * world :=
  if (abc_dir_of obj_file =? "")%string
  then (inl OSError, emit (EvMakeDirsError EmptyString) w)
  else (inr (abc_file_of obj_file),
        emit (EvAbcExport (export_job (full_path_in w root_node)
                             (abc_file_of obj_file)))
          (emit (EvSelect root_node) (dir_made (abc_dir_of obj_file) w))).

(** One turn of the top-level loop: import, then rebuilding, then export,
    then the report; a stage that raises ends the turn. *)
Definition handled_file (E : env) (obj_file : string) (w : world)
  : (exn + unit) * world :=
  match rebuilt_file E obj_file (imported E obj_file w) with
  | (inl e, w1) => (inl e, w1)
  | (inr root_node, w1) =>
      match exported_file obj_file root_node w1 with
      | (inl e, w2) => (inl e, w2)
      | (inr abc_file, w2) =>
          (inr tt,
           emit (EvPrint ("Rebuilt and exported abc file to " +:+ abc_file)) w2)
      end
  end.

(** The top-level loop: the files in their order, up to the first turn
    that raises. *)
Fixpoint handled_files (E : env) (obj_files : list string) (w : world)
  : (exn + unit) * world :=
  match obj_files with
  | [] => (inr tt, w)
  | obj_file :: rest =>
      match handled_file E obj_file w with
      | (inl e, w1) => (inl e, w1)
      | (inr _, w1) => handled_files E rest w1
      end
  end.


(** [m] sees nothing of the world but the scene: from two worlds with
    the same scene it gives the same outcome, leaves the same scene and
    issues the same commands. *)
Definition scene_only {A} (m : M A) : Prop :=
  forall w1 w2, scene w1 = scene w2 ->
    fst (m w1) = fst (m w2)
    /\ scene (snd (m w1)) = scene (snd (m w2))
    /\ exists tr, log (snd (m w1)) = log w1 ++ tr
                  /\ log (snd (m w2)) = log w2 ++ tr.

(** A log without the calls of [os.makedirs]. *)
Definition but_makedirs (tr : list event) : list event :=
  List.filter (fun e => match e with EvMakeDirs _ => false | _ => true end) tr.

(** [old] occurs in [s]. *)
Definition occurs (old s : string) : Prop :=
  exists a b, s = a +:+ old +:+ b.

(** The same, as a test. *)
Fixpoint occursb (old s : string) : bool :=
  match s with
  | EmptyString => String.prefix old s
  | String _ s' => String.prefix old s || occursb old s'
  end.

(** [p] stands right before [c] in the path [l]. *)
Definition adjacent (p c : string) (l : list string) : Prop :=
  exists l1 l2, l = l1 ++ p :: c :: l2.

(** No end of [old] is also a start of [old], [old] itself apart: two
    occurrences of [old] cannot overlap. *)
Definition border_free (old : string) : Prop :=
  forall u t, old = u +:+ t -> u <> EmptyString -> t <> EmptyString ->
              String.prefix t old = false.

(** [m] keeps [R]: every run, whether it returns or raises, leaves a
    world that [R] relates to the one it started from. *)
Definition keeps {A} (R : world -> world -> Prop) (m : M A) : Prop :=
  forall w, R w (snd (m w)).

(** From [w] to [w']: the directories are the same and no node is gone. *)
Definition grows (w w' : world) : Prop :=
  dirs w' = dirs w /\ forall n, present n w -> present n w'.

(** The character [c] is in [s]. *)
Fixpoint mentions (c : ascii) (s : string) : bool :=
  match s with
  | EmptyString => false
  | String a s' => Ascii.eqb a c || mentions c s'
  end.

(** The events of a log that call [os.makedirs] name directories that
    are all different. *)
Definition makedirs_once (tr : list event) : Prop :=
  NoDup (makedirs_calls tr).

(** [job] is an export job for the cache of [obj_file]. *)
Definition job_for (obj_file job : string) : Prop :=
  exists root_path, job = export_job root_path (abc_file_of obj_file).

(** In [a +:+ old +:+ b] the occurrence of [old] that stands behind [a]
    is the first one: none starts further left. *)
Definition leftmost (old a b : string) : Prop :=
  forall a' b', a +:+ old +:+ b = a' +:+ old +:+ b' ->
                String.length a <= String.length a'.

(** [r] is [s] with the occurrences of [old] replaced by [new], from the
    left and without overlap: either [old] does not occur, or [s] is cut
    at its first occurrence, which becomes [new], and what stands behind
    that occurrence is rewritten in the same way. *)
Inductive rewritten (old new : string) : string -> string -> Prop :=
  | rewritten_none s : ~ occurs old s -> rewritten old new s s
  | rewritten_first a b r :
      leftmost old a b ->
      rewritten old new b r ->
      rewritten old new (a +:+ old +:+ b) (a +:+ new +:+ r).

End Spec.

(** ** A small dataset to run the script on *)
Module Demo.
Import Host Script.

Definition obj_dir : string := PyStr.path_join root_dir "obj".

(** Two assets: [tree], with an OBJ file of its own and one in its
    archives, and [rock]. *)
Definition island : env := {|
  listdir d :=
    if (d =? obj_dir)%string then inr ["tree"; "rock"] else inl OSError;
  glob p :=
    if (p =? obj_dir +:+ "/tree/*.obj")%string
    then [obj_dir +:+ "/tree/tree.obj"]
    else if (p =? obj_dir +:+ "/tree/archives/*.obj")%string
    then [obj_dir +:+ "/tree/archives/leaf.obj"]
    else if (p =? obj_dir +:+ "/rock/*.obj")%string
    then [obj_dir +:+ "/rock/rock_b.obj"; obj_dir +:+ "/rock/rock_a.obj"]
    else [];
  load_json f :=
    if (f =? obj_dir +:+ "/tree/tree.hier")%string
    then inr (JObject [("trunk", JString "|root|grp|sub");
                       ("crown", JString "|root|grp")])
    else if (f =? obj_dir +:+ "/tree/archives/leaf.hier")%string
    then inr (JObject [("leaf", JString "|root|twig")])
    else if (f =? obj_dir +:+ "/rock/rock_a.hier")%string
    then inr (JObject [])
    else inl IOError;
  obj_nodes f :=
    if (f =? obj_dir +:+ "/tree/tree.obj")%string then ["trunk"; "crown"]
    else if (f =? obj_dir +:+ "/tree/archives/leaf.obj")%string then ["leaf"]
    else ["rock"]
|}.

(** Nothing in the scene, no directory, nothing logged. *)
Definition fresh : world := {| scene := ∅; dirs := ∅; log := [] |}.

(** A scene that holds the model [trunk]. *)
Definition with_trunk : world :=
  {| scene := {[ "trunk" := None ]}; dirs := ∅; log := [] |}.

(** The asset [tree] alone: every sidecar is there and names a root. *)
Definition grove : env := {|
  listdir d := if (d =? obj_dir)%string then inr ["tree"] else inl OSError;
  glob := glob island;
  load_json := load_json island;
  obj_nodes := obj_nodes island
|}.

(** A sidecar whose second item has a path without a pipe. *)
Definition half : env := {|
  listdir := listdir island;
  glob := glob island;
  load_json _ :=
    inr (JObject [("trunk", JString "|root|grp");
                  ("crown", JString "grp");
                  ("leaf", JString "|root|twig")]);
  obj_nodes := obj_nodes island
|}.

(** A scene where the chain [root], [grp] is built and the model [crown]
    waits under the world. *)
Definition settled : world :=
  {| scene := {[ "root" := None; "grp" := Some "root"; "crown" := None ]};
     dirs := ∅; log := [] |}.

End Demo.

Import Host Script Spec.
Local Open Scope host_scope.

(** ** The string functions on examples *)
Example replace_ex1 : PyStr.replace "/d/obj/objects/a.obj" "obj" "abc" = "/d/abc/abcects/a.abc".
Proof. reflexivity. Qed.
Example replace_ex2 : PyStr.replace "aaa" "aa" "b" = "ba".
Proof. reflexivity. Qed.
Example replace_ex3 : PyStr.replace "ab" "" "-" = "-a-b-".
Proof. reflexivity. Qed.
Example split_ex1 : PyStr.split "|a|b|c" "|" = [""; "a"; "b"; "c"].
Proof. reflexivity. Qed.
Example split_ex2 : PyStr.split "" "|" = [""].
Proof. reflexivity. Qed.
Example split_ex3 : PyStr.split "a|" "|" = ["a"; ""].
Proof. reflexivity. Qed.
Example dirname_ex1 : PyStr.dirname "/a/b/c.obj" = "/a/b".
Proof. reflexivity. Qed.
Example dirname_ex2 : PyStr.dirname "/c.obj" = "/".
Proof. reflexivity. Qed.
Example dirname_ex3 : PyStr.dirname "c.obj" = "".
Proof. reflexivity. Qed.
Example dirname_ex4 : PyStr.dirname "/a//c.obj" = "/a".
Proof. reflexivity. Qed.
Example dirname_ex5 : PyStr.dirname "//c.obj" = "//".
Proof. reflexivity. Qed.
Example basename_ex1 : PyStr.basename "/a/b/c.obj" = "c.obj".
Proof. reflexivity. Qed.
Example basename_ex2 : PyStr.basename "/a/b/" = "".
Proof. reflexivity. Qed.
Example join_ex1 : PyStr.path_join "/a" "b" = "/a/b".
Proof. reflexivity. Qed.
Example join_ex2 : PyStr.path_join "/a/" "b" = "/a/b".
Proof. reflexivity. Qed.
Example join_ex3 : PyStr.path_join "/a" "/b" = "/b".
Proof. reflexivity. Qed.
Example join_ex4 : PyStr.path_join "" "b" = "b".
Proof. reflexivity. Qed.
Example sorted_ex1 : PyStr.sorted ["b"; "a/z"; "a"; "B"] = ["B"; "a"; "a/z"; "b"].
Proof. vm_compute. reflexivity. Qed.

(** ** Running the monad *)
Section Running.
Context {A B : Type}.

Lemma bind_ok (m : M A) (k : A -> M B) w a w1 :
  m w = (inr a, w1) -> bind m k w = k a w1.
Proof. intros H. unfold bind. now rewrite H. Qed.

Lemma bind_raise (m : M A) (k : A -> M B) w e w1 :
  m w = (inl e, w1) -> bind m k w = (inl e, w1).
Proof. intros H. unfold bind. now rewrite H. Qed.

(** A bind that returns went through both parts. *)
Lemma bind_inv (m : M A) (k : A -> M B) w b w2 :
  bind m k w = (inr b, w2) ->
  exists a w1, m w = (inr a, w1) /\ k a w1 = (inr b, w2).
Proof.
  unfold bind. destruct (m w) as [[e | a] w1]; intros H.
  - discriminate.
  - now exists a, w1.
Qed.

End Running.

Lemma for_each_app {A S} (xs ys : list A) (body : A -> S -> M S) (s : S) w :
  for_each (xs ++ ys) body s w
  = (let* s' := for_each xs body s in for_each ys body s') w.
Proof.
  revert s w. induction xs as [| x xs IH]; intros s w; simpl.
  - reflexivity.
  - unfold bind in *. destruct (body x s w) as [[e | s1] w1].
    + reflexivity.
    + apply IH.
Qed.

(** ** Discovery of the OBJ files *)
Section Discovery.
Variable E : env.

Lemma get_asset_objs_loop obj_dir assets acc w :
  for_each assets
    (fun asset obj_files =>
       ret (obj_files
            ++ PyStr.sorted
                 (glob E (PyStr.path_join (PyStr.path_join obj_dir asset) "*.obj")
                  ++ glob E (PyStr.path_join
                               (PyStr.path_join (PyStr.path_join obj_dir asset)
                                  "archives") "*.obj"))))
    acc w
  = (inr (acc ++ discovered E obj_dir assets), w).
Proof.
  revert acc. induction assets as [| a assets IH]; intros acc; simpl.
  - unfold discovered. simpl. now rewrite app_nil_r.
  - unfold bind, ret at 1. rewrite IH. unfold discovered. simpl.
    now rewrite <- app_assoc.
Qed.

(** [get_asset_objs] in one step. *)
Lemma get_asset_objs_run obj_dir w :
  get_asset_objs E obj_dir w
  = match listdir E obj_dir with
    | inl e => (inl e, w)
    | inr assets => (inr (discovered E obj_dir assets), w)
    end.
Proof.
  unfold get_asset_objs. destruct (listdir E obj_dir) as [e | assets].
  - reflexivity.
  - now rewrite get_asset_objs_loop.
Qed.

Lemma sorted_Sorted l : Sorted String.le (PyStr.sorted l).
Proof. apply Sorted_merge_sort. apply _. Qed.

Lemma sorted_Permutation l : Permutation (PyStr.sorted l) l.
Proof. apply merge_sort_Permutation. Qed.

(** C2: [get_asset_objs] raises what [os.listdir] raises, and otherwise
    returns, without touching the host, the concatenation over the
    listed entries, in that order, of the sorted list of what the two
    [*.obj] patterns of the entry match; each such list is in order, it
    is a rearrangement of the matches, and every returned file is a
    match of one of the two patterns of a listed entry. *)
Theorem get_asset_objs_spec (obj_dir : string) (w : world) :
  match listdir E obj_dir with
  | inl e => get_asset_objs E obj_dir w = (inl e, w)
  | inr assets =>
      get_asset_objs E obj_dir w = (inr (discovered E obj_dir assets), w)
      /\ Forall (fun asset =>
                   Sorted String.le (PyStr.sorted (asset_globs E obj_dir asset))
                   /\ Permutation (PyStr.sorted (asset_globs E obj_dir asset))
                        (asset_globs E obj_dir asset)) assets
      /\ (forall f, In f (discovered E obj_dir assets) ->
                    exists asset, In asset assets
                                  /\ In f (asset_globs E obj_dir asset))
  end.
Proof.
  rewrite get_asset_objs_run. destruct (listdir E obj_dir) as [e | assets].
  - reflexivity.
  - split; [| split].
    + reflexivity.
    + apply Forall_forall. intros asset _. split.
      * apply sorted_Sorted.
      * apply sorted_Permutation.
    + intros f Hf. unfold discovered in Hf.
      apply in_concat in Hf as [chunk [Hchunk Hin]].
      apply in_map_iff in Hchunk as [asset [<- Hasset]].
      exists asset. split; [assumption |].
      eapply Permutation_in; [apply sorted_Permutation | exact Hin].
Qed.

End Discovery.

(** ** Rebuilding the hierarchy *)
Section Hierarchy.

Lemma node_or_create_ensure n w : node_or_create n w = (inr n, ensure n w).
Proof.
  unfold node_or_create, try_except, PyNode, ensure, createNode.
  destruct (scene w !! n); reflexivity.
Qed.

Lemma setParent_reparent c p w : setParent c p w = (inr tt, reparent c p w).
Proof. reflexivity. Qed.

Lemma enumerate_from_cons k x l :
  enumerate_from k (x :: l) = (Z.of_nat k, x) :: enumerate_from (S k) l.
Proof. reflexivity. Qed.

Lemma py_index_app_mid (pre : list string) e rest :
  py_index (pre ++ e :: rest) (Z.of_nat (S (length pre)) - 1)
  = ret e.
Proof.
  unfold py_index.
  assert (Hpred : (Z.of_nat (S (length pre)) - 1)%Z = Z.of_nat (length pre))
    by lia.
  assert (Hpos : (Z.of_nat (length pre) <? 0)%Z = false)
    by (apply Z.ltb_ge; lia).
  rewrite Hpred, Hpos, Hpos, Nat2Z.id.
  rewrite nth_error_app2 by lia. now rewrite Nat.sub_diag.
Qed.

(** The inner loop on the part of the path below [e]. *)
Lemma reparent_loop_from rest : forall pre e w,
  for_each (rev (enumerate_from (S (length pre)) rest))
    (reparent_elem (pre ++ e :: rest)) tt w
  = (inr tt, link_chain e rest w).
Proof.
  induction rest as [| r rest IH]; intros pre e w.
  - reflexivity.
  - rewrite enumerate_from_cons. simpl rev. rewrite for_each_app.
    specialize (IH (pre ++ [e]) r w).
    rewrite length_app, Nat.add_1_r, <- app_assoc in IH. simpl in IH.
    erewrite bind_ok by exact IH.
    simpl for_each. unfold reparent_elem.
    destruct (Z.eqb_spec (Z.of_nat (S (length pre))) 0) as [H0 | _]; [exfalso; lia |].
    simpl negb. cbv iota.
    rewrite py_index_app_mid.
    unfold bind at 1. unfold bind at 1. unfold ret at 1.
    unfold bind at 1. rewrite node_or_create_ensure.
    unfold bind at 1. rewrite node_or_create_ensure.
    rewrite setParent_reparent. reflexivity.
Qed.

(** The inner loop of [rebuild_asset_hierarchy] on a whole path. *)
Lemma reparent_loop e0 rest w :
  for_each (rev (enumerate (e0 :: rest))) (reparent_elem (e0 :: rest)) tt w
  = (inr tt, link_chain e0 rest w).
Proof.
  change (enumerate (e0 :: rest)) with ((0%Z, e0) :: enumerate_from 1 rest).
  simpl rev. rewrite for_each_app.
  erewrite bind_ok by exact (reparent_loop_from rest [] e0 w).
  reflexivity.
Qed.

Lemma ensure_present n w : present n (ensure n w).
Proof.
  unfold present, ensure. destruct (scene w !! n) eqn:Hn; simpl.
  - now rewrite Hn.
  - rewrite lookup_insert_eq. eauto.
Qed.

Lemma ensure_keeps n m w : present m w -> present m (ensure n w).
Proof.
  unfold present, ensure. intros Hm. destruct (scene w !! n) eqn:Hn; simpl.
  - exact Hm.
  - destruct (decide (n = m)) as [-> | Hne].
    + rewrite lookup_insert_eq. eauto.
    + now rewrite lookup_insert_ne.
Qed.

Lemma reparent_keeps c p m w : present m w -> present m (reparent c p w).
Proof.
  unfold present, reparent. simpl. intros Hm.
  destruct (decide (c = m)) as [-> | Hne].
  - rewrite lookup_insert_eq. eauto.
  - now rewrite lookup_insert_ne.
Qed.

Lemma reparent_child c p w : scene (reparent c p w) !! c = Some (Some p).
Proof. unfold reparent. simpl. apply lookup_insert_eq. Qed.

Lemma link_chain_keeps m rest : forall prev w,
  present m w -> present m (link_chain prev rest w).
Proof.
  induction rest as [| e rest IH]; intros prev w Hm; simpl.
  - exact Hm.
  - apply reparent_keeps, ensure_keeps, ensure_keeps, IH, Hm.
Qed.

(** With two path elements or more, the loop leaves the first one in
    the scene. *)
Lemma link_chain_root e0 rest w :
  rest <> [] -> present e0 (link_chain e0 rest w).
Proof.
  destruct rest as [| e rest]; intros Hne; [congruence |]. simpl.
  apply reparent_keeps, ensure_present.
Qed.

Lemma last_elem_cons e0 e rest : last_elem e0 (e :: rest) = last_elem e rest.
Proof.
  unfold last_elem. revert e0 e. induction rest as [| x rest IH]; intros e0 e.
  - reflexivity.
  - change (List.last (e :: x :: rest) e0) with (List.last (x :: rest) e0).
    now rewrite (IH e0 x), (IH e x).
Qed.

(** ... and the last one. *)
Lemma link_chain_last rest : forall e0 w,
  rest <> [] -> present (last_elem e0 rest) (link_chain e0 rest w).
Proof.
  induction rest as [| e rest IH]; intros e0 w Hne; [congruence |].
  rewrite last_elem_cons. simpl.
  apply reparent_keeps, ensure_keeps.
  destruct rest as [| e' rest].
  - apply ensure_present.
  - apply ensure_keeps, IH. discriminate.
Qed.

Lemma split_cons s sep : exists h t, PyStr.split s sep = h :: t.
Proof.
  induction s as [| c s [h [t IH]]]; simpl.
  - eauto.
  - destruct (Ascii.eqb c sep); [eauto |]. rewrite IH. eauto.
Qed.

Lemma py_index_last e0 rest :
  py_index (e0 :: rest) (-1) = ret (last_elem e0 rest).
Proof.
  unfold py_index. change (-1 <? 0)%Z with true. cbv iota.
  assert (Hj : (-1 + Z.of_nat (length (e0 :: rest)))%Z = Z.of_nat (length rest))
    by (simpl length; lia).
  assert (Hpos : (Z.of_nat (length rest) <? 0)%Z = false)
    by (apply Z.ltb_ge; lia).
  rewrite Hj, Hpos, Nat2Z.id.
  assert (Hnth : nth_error (e0 :: rest) (length rest) = Some (last_elem e0 rest)).
  { clear. revert e0. induction rest as [| e rest IH]; intros e0.
    - reflexivity.
    - rewrite last_elem_cons. apply IH. }
  now rewrite Hnth.
Qed.

Lemma py_index_first (e0 : string) (rest : list string) :
  py_index (e0 :: rest) 0 = ret e0.
Proof. reflexivity. Qed.

(** One turn of the outer loop on a path with an element left after the
    first one is dropped. *)
Lemma rebuild_entry_eq model s loc w e0 rest :
  tl (PyStr.split s "|") = e0 :: rest ->
  rebuild_entry (model, JString s) loc w
  = let (loc', w2) := attach model (last_elem e0 rest) loc (link_chain e0 rest w) in
    (let* r := PyNode e0 in ret (set_root_par_node loc' r)) w2.
Proof.
  intros Hs. unfold rebuild_entry, str_split.
  destruct (split_cons s "|") as [h [t Hsplit]].
  rewrite Hsplit in Hs. simpl in Hs. subst t.
  unfold bind at 1, ret at 1. rewrite Hsplit.
  unfold bind at 1. simpl pop0. unfold ret at 1.
  unfold bind at 1. rewrite py_index_last. unfold ret at 1.
  unfold bind at 1. rewrite py_index_first. unfold ret at 1.
  unfold bind at 1. rewrite reparent_loop.
  set (w1 := link_chain e0 rest w). unfold attach.
  destruct (scene w1 !! model) eqn:Hm;
    destruct (scene w1 !! last_elem e0 rest) eqn:Hl;
    unfold bind, try_except, PyNode, setParent, print, tell, ret, reparent;
    cbn [scene emit with_scene]; rewrite ?Hm; cbn [scene emit with_scene];
    rewrite ?Hl; reflexivity.
Qed.

(** A path without a pipe has nothing left after the first element is
    dropped: [hier_split[-1]] raises. *)
Lemma rebuild_entry_short model s loc w :
  tl (PyStr.split s "|") = [] ->
  rebuild_entry (model, JString s) loc w = (inl IndexError, w).
Proof.
  intros Hs. unfold rebuild_entry, str_split.
  destruct (split_cons s "|") as [h [t Hsplit]].
  rewrite Hsplit in Hs. simpl in Hs. subst t.
  unfold bind at 1, ret at 1. rewrite Hsplit. reflexivity.
Qed.

(** A turn of the outer loop that ends normally was given a string with a
    path element left, and has bound [root_par_node] to the first one. *)
Lemma rebuild_entry_inv model hier loc w loc' w' :
  rebuild_entry (model, hier) loc w = (inr loc', w') ->
  exists s e0 rest,
    hier = JString s /\ tl (PyStr.split s "|") = e0 :: rest
    /\ root_par_node loc' = Some e0.
Proof.
  destruct hier as [s |]; [| discriminate].
  destruct (tl (PyStr.split s "|")) as [| e0 rest] eqn:Hs.
  - rewrite (rebuild_entry_short _ _ _ _ Hs). discriminate.
  - rewrite (rebuild_entry_eq _ _ _ _ _ _ Hs).
    destruct (attach model (last_elem e0 rest) loc (link_chain e0 rest w))
      as [loc1 w2].
    unfold bind, PyNode, ret. destruct (scene w2 !! e0); [| discriminate].
    intros H. injection H as <- _. exists s, e0, rest. auto.
Qed.


(** C8: when, after the inner loop, the lookup of the node named [model]
    or of the node named by the last path element raises, the exception
    is handled: the lookups done and the message are logged, nothing
    else changes (what the inner loop created or re-parented stays),
    [model_node] is bound to [None], and the turn goes on with the lookup
    of the first path element; with two path elements or more that lookup
    succeeds and the turn ends normally. *)
Theorem rebuild_entry_model_missing model s loc w e0 rest :
  tl (PyStr.split s "|") = e0 :: rest ->
  let parent := last_elem e0 rest in
  let w1 := link_chain e0 rest w in
  scene w1 !! model = None \/ scene w1 !! parent = None ->
  exists w2,
    scene w2 = scene w1 /\ dirs w2 = dirs w1
    /\ (log w2 = log w1 ++ [EvPyNode model false; EvPrint model_missing]
        \/ log w2 = log w1 ++ [EvPyNode model true; EvPyNode parent false;
                               EvPrint model_missing])
    /\ rebuild_entry (model, JString s) loc w
       = (let* r := PyNode e0 in
          ret {| model_node := Some PyNone; root_par_node := Some r |}) w2
    /\ (rest <> [] ->
        rebuild_entry (model, JString s) loc w
        = (inr {| model_node := Some PyNone; root_par_node := Some e0 |},
           emit (EvPyNode e0 true) w2)).
Proof.
  intros Hs parent w1 Hmiss.
  rewrite (rebuild_entry_eq _ _ _ _ _ _ Hs). fold parent w1.
  assert (Hroot : forall w2, scene w2 = scene w1 -> rest <> [] ->
            (let* r := PyNode e0 in
             ret (set_root_par_node (set_model_node loc PyNone) r)) w2
            = (inr {| model_node := Some PyNone; root_par_node := Some e0 |},
               emit (EvPyNode e0 true) w2)).
  { intros w2 Hsc Hne. unfold bind, PyNode. rewrite Hsc.
    destruct (link_chain_root e0 rest w Hne) as [pe He]. fold w1 in He.
    now rewrite He. }
  unfold attach.
  destruct (scene w1 !! model) as [pm |] eqn:Hm.
  - destruct Hmiss as [Hmiss | Hmiss]; [discriminate |]. rewrite Hmiss.
    eexists. split; [| split; [| split; [| split]]].
    4: reflexivity.
    + reflexivity.
    + reflexivity.
    + right. cbn [log emit]. now rewrite <- !app_assoc.
    + intros Hne. now apply Hroot.
  - eexists. split; [| split; [| split; [| split]]].
    4: reflexivity.
    + reflexivity.
    + reflexivity.
    + left. cbn [log emit]. now rewrite <- !app_assoc.
    + intros Hne. now apply Hroot.
Qed.

End Hierarchy.

(** ** The value [rebuild_asset_hierarchy] returns *)
Section Returned.
Variable E : env.

(** [rebuild_asset_hierarchy] once the sidecar is parsed as an object. *)
Lemma rebuild_on_items obj_file items w :
  load_json E (hier_path obj_file) = inr (JObject items) ->
  rebuild_asset_hierarchy E obj_file w
  = match for_each items rebuild_entry unbound (emit (EvOpen (hier_path obj_file)) w) with
    | (inr loc, w') =>
        match root_par_node loc with
        | Some n => (inr n, w')
        | None => (inl UnboundLocalError, w')
        end
    | (inl e, w') => (inl e, w')
    end.
Proof.
  intros Hload. unfold rebuild_asset_hierarchy, json_load, bind.
  fold (hier_path obj_file). rewrite Hload. simpl iteritems. unfold ret at 1.
  destruct (for_each items rebuild_entry unbound _) as [[e | loc] w'].
  - reflexivity.
  - destruct (root_par_node loc); reflexivity.
Qed.

(** The outer loop binds [root_par_node] in its last turn. *)
Lemma outer_loop_root items : forall loc w loc' w',
  for_each items rebuild_entry loc w = (inr loc', w') ->
  (items = [] /\ loc' = loc)
  \/ exists before model s e0 rest,
       items = before ++ [(model, JString s)]
       /\ tl (PyStr.split s "|") = e0 :: rest
       /\ root_par_node loc' = Some e0.
Proof.
  induction items as [| last items _] using rev_ind; intros loc w loc' w' Hrun.
  - left. simpl in Hrun. unfold ret in Hrun. injection Hrun as <- _. auto.
  - right. rewrite for_each_app in Hrun.
    apply bind_inv in Hrun as [loc1 [w1 [_ Hlast]]].
    simpl in Hlast. apply bind_inv in Hlast as [loc2 [w2 [Hentry Hret]]].
    unfold ret in Hret. injection Hret as <- _.
    destruct last as [model hier].
    apply rebuild_entry_inv in Hentry as [s [e0 [rest [-> [Hs Hroot]]]]].
    exists items, model, s, e0, rest. auto.
Qed.

(** C9: on an empty object, [rebuild_asset_hierarchy] raises
    [UnboundLocalError], a [NameError]; whenever it returns a node, the
    object has entries, the path of the entry that [iteritems] yields
    last is a string with an element left after the first one is
    dropped, and the returned node is named by the first element
    left. *)
Theorem rebuild_returns_last_root obj_file w :
  (load_json E (hier_path obj_file) = inr (JObject []) ->
   rebuild_asset_hierarchy E obj_file w
   = (inl UnboundLocalError, emit (EvOpen (hier_path obj_file)) w)
   /\ is_NameError UnboundLocalError = true)
  /\ (forall n w',
        rebuild_asset_hierarchy E obj_file w = (inr n, w') ->
        exists before model s rest,
          load_json E (hier_path obj_file)
          = inr (JObject (before ++ [(model, JString s)]))
          /\ tl (PyStr.split s "|") = n :: rest).
Proof.
  split.
  - intros Hload. split; [| reflexivity].
    now rewrite (rebuild_on_items _ _ _ Hload).
  - intros n w' Hrun.
    destruct (load_json E (hier_path obj_file)) as [e | [items |]] eqn:Hload.
    + unfold rebuild_asset_hierarchy, json_load, bind in Hrun.
      fold (hier_path obj_file) in Hrun. rewrite Hload in Hrun. discriminate.
    + rewrite (rebuild_on_items _ _ _ Hload) in Hrun.
      destruct (for_each items rebuild_entry unbound _) as [[e | loc] w1] eqn:Hloop;
        [discriminate |].
      destruct (root_par_node loc) as [r |] eqn:Hr; [| discriminate].
      injection Hrun as -> ->.
      apply outer_loop_root in Hloop
        as [[_ ->] | [before [model [s [e0 [rest [-> [Hs Hroot]]]]]]]].
      * discriminate.
      * rewrite Hr in Hroot. injection Hroot as ->.
        exists before, model, s, rest. auto.
    + unfold rebuild_asset_hierarchy, json_load, bind in Hrun.
      fold (hier_path obj_file) in Hrun. rewrite Hload in Hrun. discriminate.
Qed.

End Returned.

(** ** [str.replace] rewrites every occurrence *)
Section Replace.

Lemma append_cons x (a b : string) : String x a +:+ b = String x (a +:+ b).
Proof. reflexivity. Qed.

Lemma append_nil_l (a : string) : "" +:+ a = a.
Proof. reflexivity. Qed.

Lemma append_assoc (a b c : string) : (a +:+ b) +:+ c = a +:+ b +:+ c.
Proof.
  induction a as [| x a IH]; [reflexivity |].
  now rewrite !append_cons, IH.
Qed.

Lemma append_nil_r (a : string) : a +:+ "" = a.
Proof.
  induction a as [| x a IH]; [reflexivity |].
  now rewrite append_cons, IH.
Qed.

Lemma length_append (a b : string) :
  String.length (a +:+ b) = String.length a + String.length b.
Proof.
  induction a as [| x a IH]; [reflexivity |].
  rewrite append_cons. cbn [String.length]. now rewrite IH.
Qed.

Lemma prefix_append (a b : string) : String.prefix a (a +:+ b) = true.
Proof.
  induction a as [| x a IH]; [now destruct b |].
  rewrite append_cons. cbn [String.prefix].
  destruct (ascii_dec x x); [exact IH | congruence].
Qed.

Lemma prefix_inv (a : string) : forall s,
  String.prefix a s = true -> exists t, s = a +:+ t.
Proof.
  induction a as [| x a IH]; intros s H.
  - now exists s.
  - destruct s as [| y s]; simpl in H; [discriminate |].
    destruct (ascii_dec x y) as [-> | _]; [| discriminate].
    destruct (IH s H) as [t ->]. now exists t.
Qed.

(** Two ways to cut one string: one cut is inside the other's first
    part. *)
Lemma append_eq_split (a : string) : forall o x y,
  a +:+ x = o +:+ y ->
  (exists t, a = o +:+ t /\ y = t +:+ x)
  \/ (exists t, t <> "" /\ o = a +:+ t /\ x = t +:+ y).
Proof.
  induction a as [| c a IH]; intros o x y H; simpl in H.
  - destruct o as [| d o].
    + left. exists "". simpl in *. auto.
    + right. exists (String d o). repeat split; [discriminate | exact H].
  - destruct o as [| d o]; simpl in H.
    + left. exists (String c a). simpl. auto.
    + injection H as -> H. destruct (IH o x y H) as [[t [-> ->]] | [t [Ht [-> ->]]]].
      * left. now exists t.
      * right. now exists t.
Qed.

Lemma replace_scan_skip old new (u : string) : forall s,
  PyStr.replace_scan old new (String.length u) (u +:+ s)
  = PyStr.replace_scan old new 0 s.
Proof. induction u as [| c u IH]; intros s; simpl; [reflexivity | apply IH]. Qed.

(** At an occurrence, the scan puts [new] and goes on behind it. *)
Lemma replace_scan_hit old new s :
  old <> "" ->
  PyStr.replace_scan old new 0 (old +:+ s)
  = new +:+ PyStr.replace_scan old new 0 s.
Proof.
  intros Hold. destruct old as [| c o]; [congruence |].
  change (String c o +:+ s) with (String c (o +:+ s)).
  cbn [PyStr.replace_scan].
  change (String c (o +:+ s)) with (String c o +:+ s).
  rewrite prefix_append.
  replace (String.length (String c o) - 1) with (String.length o)
    by (simpl; lia).
  now rewrite replace_scan_skip.
Qed.

(** Elsewhere it keeps the character. *)
Lemma replace_scan_miss old new c s :
  String.prefix old (String c s) = false ->
  PyStr.replace_scan old new 0 (String c s)
  = String c (PyStr.replace_scan old new 0 s).
Proof. intros H. cbn [PyStr.replace_scan]. now rewrite H. Qed.

Lemma replace_scan_occurrence old new b :
  old <> "" -> border_free old ->
  forall n a, String.length a < n ->
    PyStr.replace_scan old new 0 (a +:+ old +:+ b)
    = PyStr.replace_scan old new 0 a +:+ new +:+ PyStr.replace_scan old new 0 b.
Proof.
  intros Hold Hfree. induction n as [| n IH]; intros a Hlen; [lia |].
  destruct a as [| c a].
  - cbn [PyStr.replace_scan]. rewrite !append_nil_l.
    now apply replace_scan_hit.
  - destruct (String.prefix old (String c a +:+ old +:+ b)) eqn:Hp.
    + apply prefix_inv in Hp as [t Ht].
      apply append_eq_split in Ht as [[t' [Ha ->]] | [t' [Hne [Ho Hx]]]].
      * rewrite Ha, append_assoc, !replace_scan_hit by assumption.
        rewrite IH.
        -- now rewrite append_assoc.
        -- rewrite Ha, length_append in Hlen.
           destruct old; [congruence | simpl in Hlen; lia].
      * exfalso.
        assert (Hpre : String.prefix t' old = true).
        { symmetry in Hx. apply append_eq_split in Hx as [[u [Hu _]] | [u [_ [Hu _]]]].
          - exfalso. apply (f_equal String.length) in Hu.
            pose proof (f_equal String.length Ho) as Hl.
            rewrite length_append in Hu, Hl. cbn [String.length] in Hl. lia.
          - rewrite Hu. apply prefix_append. }
        rewrite (Hfree (String c a) t' Ho) in Hpre; [discriminate | discriminate | exact Hne].
    + rewrite append_cons in Hp |- *. rewrite replace_scan_miss by exact Hp.
      rewrite IH by (cbn [String.length] in Hlen; lia).
      rewrite replace_scan_miss; [now rewrite append_cons |].
      destruct (String.prefix old (String c a)) eqn:Hq; [| reflexivity].
      apply prefix_inv in Hq as [t Ht].
      rewrite <- append_cons, Ht, append_assoc, prefix_append in Hp.
      discriminate.
Qed.

(** Every occurrence of a border-free [old] is rewritten, wherever it
    is. *)
Lemma replace_occurrence old new a b :
  old <> "" -> border_free old ->
  PyStr.replace (a +:+ old +:+ b) old new
  = PyStr.replace a old new +:+ new +:+ PyStr.replace b old new.
Proof.
  intros Hold Hfree. unfold PyStr.replace.
  destruct old as [| c o]; [congruence |].
  apply (replace_scan_occurrence _ _ _ Hold Hfree (S (String.length a))). lia.
Qed.

(** A string without an occurrence is left as it is. *)
Lemma replace_absent old new : forall s,
  old <> "" -> ~ occurs old s -> PyStr.replace s old new = s.
Proof.
  intros s Hold. unfold PyStr.replace. destruct old as [| c o]; [congruence |].
  induction s as [| x s IH]; intros Hno; [reflexivity |].
  rewrite replace_scan_miss.
  - rewrite IH; [reflexivity |].
    intros [a [b ->]]. apply Hno. now exists (String x a), b.
  - destruct (String.prefix (String c o) (String x s)) eqn:Hp; [| reflexivity].
    apply prefix_inv in Hp as [t Ht]. exfalso. apply Hno.
    exists "", t. exact Ht.
Qed.

End Replace.

(** The two patterns the script replaces are border-free. *)
Lemma border_free_obj : border_free "obj".
Proof.
  intros u t H Hu Ht.
  destruct u as [| c1 [| c2 [| c3 [| c4 u]]]]; [congruence | | | |];
    rewrite ?append_cons, ?append_nil_l in H; inversion H; subst;
    try reflexivity; congruence.
Qed.

Lemma border_free_dot_obj : border_free ".obj".
Proof.
  intros u t H Hu Ht.
  destruct u as [| c1 [| c2 [| c3 [| c4 [| c5 u]]]]]; [congruence | | | | |];
    rewrite ?append_cons, ?append_nil_l in H; inversion H; subst;
    try reflexivity; congruence.
Qed.

(** ** Exporting the cache *)
Section Exporting.

Lemma abc_jobs_app l1 l2 : abc_jobs (l1 ++ l2) = abc_jobs l1 ++ abc_jobs l2.
Proof. apply flat_map_app. Qed.

Lemma makedirs_calls_app l1 l2 :
  makedirs_calls (l1 ++ l2) = makedirs_calls l1 ++ makedirs_calls l2.
Proof. apply flat_map_app. Qed.

Lemma up_dirs_head fuel d : exists l, up_dirs fuel d = d :: l.
Proof.
  destruct fuel as [| k]; simpl; [eauto |].
  destruct (_ || _); eauto.
Qed.

(** [export_asset_abc] in one step. *)
Lemma export_asset_abc_eq obj_file root_node w :
  export_asset_abc obj_file root_node w = exported_file obj_file root_node w.
Proof.
  unfold export_asset_abc, exported_file, bind, path_exists, makedirs, dir_made.
  fold (abc_dir_of obj_file). fold (abc_file_of obj_file).
  destruct (String.eqb_spec (abc_dir_of obj_file) "") as [Hd | Hd].
  - rewrite Hd. reflexivity.
  - cbn [negb andb].
    destruct (bool_decide (abc_dir_of obj_file ∈ dirs w)); cbn [negb].
    + reflexivity.
    + destruct (String.eqb_spec (abc_dir_of obj_file) ""); [contradiction |].
      reflexivity.
Qed.

(** With a directory to write to, the export goes through. *)
Lemma export_asset_abc_made obj_file root_node w :
  abc_dir_of obj_file <> "" ->
  export_asset_abc obj_file root_node w
  = (inr (abc_file_of obj_file),
     emit (EvAbcExport (export_job (full_path_in w root_node) (abc_file_of obj_file)))
       (emit (EvSelect root_node) (dir_made (abc_dir_of obj_file) w))).
Proof.
  intros Hd. rewrite export_asset_abc_eq. unfold exported_file.
  now destruct (String.eqb_spec (abc_dir_of obj_file) "").
Qed.

(** Without one, [os.makedirs] raises and nothing else is done. *)
Lemma export_asset_abc_stuck obj_file root_node w :
  abc_dir_of obj_file = "" ->
  export_asset_abc obj_file root_node w
  = (inl OSError, emit (EvMakeDirsError "") w).
Proof.
  intros Hd. rewrite export_asset_abc_eq. unfold exported_file.
  now rewrite Hd.
Qed.

Lemma replace_nonempty s old new :
  new <> "" -> s <> "" -> PyStr.replace s old new <> "".
Proof.
  intros Hnew Hs. destruct s as [| c s]; [congruence |].
  unfold PyStr.replace. destruct old as [| x old].
  - cbn [PyStr.replace_empty]. destruct new; [congruence | discriminate].
  - cbn [PyStr.replace_scan].
    destruct (String.prefix _ _); [| discriminate].
    destruct new; [congruence | discriminate].
Qed.

(** The cache has no directory exactly when the OBJ path has none. *)
Lemma abc_dir_of_empty obj_file :
  abc_dir_of obj_file = "" <-> PyStr.dirname obj_file = "".
Proof.
  unfold abc_dir_of. split.
  - intros H. destruct (PyStr.dirname obj_file) eqn:Hd; [reflexivity |].
    exfalso. revert H. apply replace_nonempty; discriminate.
  - intros ->. reflexivity.
Qed.

Lemma dir_made_there d w : d ∈ dirs (dir_made d w).
Proof.
  unfold dir_made. destruct (bool_decide (d ∈ dirs w)) eqn:Hd.
  - now apply bool_decide_eq_true in Hd.
  - cbn [dirs emit with_dirs].
    destruct (up_dirs_head (String.length d) d) as [l ->].
    set_solver.
Qed.

(** C3, as the code has it: for an OBJ path with a directory part, a
    call of [export_asset_abc] gives the Alembic exporter exactly one
    job: the five flags, the same whatever the OBJ file and the root node
    are, then the root and the file of this export, which are not.  For
    an OBJ path without a directory part the call raises in [os.makedirs]
    and the exporter gets no job. *)
Theorem export_asset_abc_one_job obj_file root_node w :
  (PyStr.dirname obj_file <> "" ->
   abc_jobs (log (snd (export_asset_abc obj_file root_node w)))
   = abc_jobs (log w)
     ++ ["-frameRange 1 1 -uvWrite -worldSpace -writeUVSets -dataFormat ogawa"
         +:+ " -root " +:+ full_path_in w root_node
         +:+ " -file " +:+ abc_file_of obj_file])
  /\ (PyStr.dirname obj_file = "" ->
      fst (export_asset_abc obj_file root_node w) = inl OSError
      /\ abc_jobs (log (snd (export_asset_abc obj_file root_node w)))
         = abc_jobs (log w))
  /\ exporter_flags = PyStr.join " " abc_flags.
Proof.
  split; [| split; [| reflexivity]].
  - intros Hdir. rewrite export_asset_abc_made
      by (intros Hd; now apply abc_dir_of_empty in Hd).
    cbn [snd log emit].
    rewrite !abc_jobs_app. cbn [abc_jobs flat_map app].
    rewrite app_nil_r. f_equal.
    unfold dir_made. destruct (bool_decide _); [reflexivity |].
    cbn [log emit with_dirs]. rewrite abc_jobs_app. cbn. now rewrite app_nil_r.
  - intros Hdir. rewrite export_asset_abc_stuck by now apply abc_dir_of_empty.
    split; [reflexivity |]. cbn [snd log emit].
    rewrite abc_jobs_app. cbn. now rewrite app_nil_r.
Qed.


End Exporting.

(** ** What the stages add to the log *)
Section Logs.
Variable P : event -> Prop.

Lemma emits_ret {A} (a : A) : emits P (ret a).
Proof. intros w. exists []. split; [now rewrite app_nil_r | constructor]. Qed.

Lemma emits_raise {A} (e : exn) : emits P (@raise A e).
Proof. intros w. exists []. split; [now rewrite app_nil_r | constructor]. Qed.

Lemma emits_tell e : P e -> emits P (tell e).
Proof. intros He w. exists [e]. split; [reflexivity | now constructor]. Qed.

Lemma emits_bind {A B} (m : M A) (k : A -> M B) :
  emits P m -> (forall a, emits P (k a)) -> emits P (bind m k).
Proof.
  intros Hm Hk w. destruct (Hm w) as [t1 [H1 F1]]. unfold bind.
  destruct (m w) as [[e | a] w1]; cbn [snd] in H1.
  - exists t1. auto.
  - destruct (Hk a w1) as [t2 [H2 F2]]. exists (t1 ++ t2). split.
    + now rewrite H2, H1, app_assoc.
    + now apply Forall_app.
Qed.

Lemma emits_try {A} (m h : M A) :
  emits P m -> emits P h -> emits P (try_except m h).
Proof.
  intros Hm Hh w. destruct (Hm w) as [t1 [H1 F1]]. unfold try_except.
  destruct (m w) as [[e | a] w1]; cbn [snd] in H1.
  - destruct (Hh w1) as [t2 [H2 F2]]. exists (t1 ++ t2). split.
    + now rewrite H2, H1, app_assoc.
    + now apply Forall_app.
  - exists t1. auto.
Qed.

Lemma emits_for_each {A S} (xs : list A) (body : A -> S -> M S) :
  (forall x s, emits P (body x s)) -> forall s, emits P (for_each xs body s).
Proof.
  intros Hbody. induction xs as [| x xs IH]; intros s; simpl.
  - apply emits_ret.
  - apply emits_bind; [apply Hbody | exact IH].
Qed.

End Logs.

Section StageLogs.
Variable E : env.

Lemma emits_PyNode n : emits node_event (PyNode n).
Proof.
  intros w. unfold PyNode. destruct (scene w !! n).
  - exists [EvPyNode n true]. split; [reflexivity | now repeat constructor].
  - exists [EvPyNode n false]. split; [reflexivity | now repeat constructor].
Qed.

Lemma emits_createNode n : emits node_event (createNode n).
Proof.
  intros w. exists [EvCreateNode n]. split; [reflexivity | now repeat constructor].
Qed.

Lemma emits_setParent c p : emits node_event (setParent c p).
Proof.
  intros w. exists [EvSetParent c p]. split; [reflexivity | now repeat constructor].
Qed.

Lemma emits_py_index (l : list string) i : emits node_event (py_index l i).
Proof.
  unfold py_index. destruct (_ <? 0)%Z; [apply emits_raise |].
  destruct (nth_error l _); [apply emits_ret | apply emits_raise].
Qed.

Lemma emits_rebuild_entry mh loc : emits node_event (rebuild_entry mh loc).
Proof.
  destruct mh as [model hier]. unfold rebuild_entry.
  apply emits_bind.
  { destruct hier; [apply emits_ret | apply emits_raise]. }
  intros l0. apply emits_bind.
  { destruct l0; [apply emits_raise | apply emits_ret]. }
  intros hs. apply emits_bind; [apply emits_py_index |].
  intros model_par. apply emits_bind; [apply emits_py_index |].
  intros root_par. apply emits_bind.
  { apply emits_for_each. intros [index elem] []. unfold reparent_elem.
    destruct (negb _); [| apply emits_ret].
    apply emits_bind; [apply emits_py_index |]. intros elem_par.
    apply emits_bind.
    { apply emits_try; [apply emits_PyNode | apply emits_createNode]. }
    intros n1. apply emits_bind.
    { apply emits_try; [apply emits_PyNode | apply emits_createNode]. }
    intros n2. apply emits_setParent. }
  intros _. apply emits_bind.
  { apply emits_try.
    - apply emits_bind; [apply emits_PyNode |]. intros n1.
      apply emits_bind; [apply emits_PyNode |]. intros n2.
      apply emits_bind; [apply emits_setParent |]. intros _. apply emits_ret.
    - apply emits_bind; [| intros _; apply emits_ret].
      apply emits_tell. reflexivity. }
  intros loc1. apply emits_bind; [apply emits_PyNode |].
  intros r. apply emits_ret.
Qed.

(** [rebuild_asset_hierarchy] opens the sidecar first; the rest are
    commands on nodes. *)
Lemma rebuild_log obj_file w :
  exists tr,
    log (snd (rebuild_asset_hierarchy E obj_file w)) = log w ++ tr
    /\ rebuild_events obj_file tr.
Proof.
  unfold rebuild_asset_hierarchy, bind at 1, json_load. fold (hier_path obj_file).
  assert (Hrest : forall hier_data,
            emits node_event
              (let* items := iteritems hier_data in
               let* loc := for_each items rebuild_entry unbound in
               match root_par_node loc with
               | Some n => ret n
               | None => raise UnboundLocalError
               end)).
  { intros hier_data. apply emits_bind.
    { destruct hier_data; [apply emits_ret | apply emits_raise]. }
    intros items. apply emits_bind.
    { apply emits_for_each. intros x s. apply emits_rebuild_entry. }
    intros loc. destruct (root_par_node loc); [apply emits_ret | apply emits_raise]. }
  destruct (load_json E (hier_path obj_file)) as [e | hier_data].
  - exists [EvOpen (hier_path obj_file)]. split; [reflexivity |].
    exists []. split; [reflexivity | constructor].
  - destruct (Hrest hier_data (emit (EvOpen (hier_path obj_file)) w))
      as [mid [Hlog Hmid]].
    exists (EvOpen (hier_path obj_file) :: mid). split.
    + rewrite Hlog. cbn [log emit]. now rewrite <- app_assoc.
    + exists mid. auto.
Qed.

End StageLogs.

(** ** The path of the sidecar *)
Section Sidecar.
Variable E : env.

(** C5, as the code has it: [rebuild_asset_hierarchy] opens, before
    anything else, the file whose path is the OBJ path with every
    occurrence of [.obj] replaced by [.hier], and parses it as JSON: it
    raises what opening or parsing raises, and otherwise runs its loop on
    the items of the parsed object.  For an OBJ path that ends in [.obj]
    and has no other occurrence of [.obj], that path is the OBJ path with
    the suffix [.obj] replaced by [.hier]. *)
Theorem sidecar_path_spec obj_file w :
  (exists tr, log (snd (rebuild_asset_hierarchy E obj_file w))
              = log w ++ EvOpen (PyStr.replace obj_file ".obj" ".hier") :: tr)
  /\ (forall e, load_json E (PyStr.replace obj_file ".obj" ".hier") = inl e ->
                fst (rebuild_asset_hierarchy E obj_file w) = inl e)
  /\ (forall items,
        load_json E (PyStr.replace obj_file ".obj" ".hier") = inr (JObject items) ->
        rebuild_asset_hierarchy E obj_file w
        = (let* loc := for_each items rebuild_entry unbound in
           match root_par_node loc with
           | Some n => ret n
           | None => raise UnboundLocalError
           end) (emit (EvOpen (PyStr.replace obj_file ".obj" ".hier")) w))
  /\ (forall stem, obj_file = stem +:+ ".obj" -> ~ occurs ".obj" stem ->
                   PyStr.replace obj_file ".obj" ".hier" = stem +:+ ".hier").
Proof.
  split; [| split; [| split]].
  - destruct (rebuild_log E obj_file w) as [tr [Hlog [mid [-> _]]]].
    exists mid. exact Hlog.
  - intros e He. unfold rebuild_asset_hierarchy, bind, json_load.
    now rewrite He.
  - intros items Hitems. unfold rebuild_asset_hierarchy, bind at 1, json_load.
    rewrite Hitems. reflexivity.
  - intros stem -> Hno.
    rewrite <- (append_nil_r (stem +:+ ".obj")), append_assoc.
    rewrite replace_occurrence by (discriminate || apply border_free_dot_obj).
    rewrite replace_absent by (discriminate || exact Hno).
    reflexivity.
Qed.

End Sidecar.

(** An OBJ path with [.obj] inside: the sidecar that is opened is not the
    one the suffix rule names. *)
Lemma sidecar_not_by_suffix :
  ~ (forall (E : env) (stem : string) (w : world),
       In (EvOpen (stem +:+ ".hier"))
          (log (snd (rebuild_asset_hierarchy E (stem +:+ ".obj") w)))).
Proof.
  intros H.
  specialize (H Demo.island "/d/a.obj" Demo.fresh).
  vm_compute in H. intuition discriminate.
Qed.

(** ** Where the cache lands *)
Section Landing.

(** C10: the cache directory is the directory part of the OBJ path with
    every occurrence of [obj] rewritten: whatever stands before and
    behind an occurrence, the occurrence becomes [abc] and the two sides
    are rewritten in the same way.  So for the OBJ file [a.obj] of an
    asset named [objects] under the [obj] directory of the dataset, the
    cache is written to [abc/abcects/a.abc], not to [abc/objects/a.abc]
    in the tree that mirrors [obj]. *)
Theorem abc_dir_rewrites_every_obj :
  (forall obj_file root_node w a b,
      PyStr.dirname obj_file = a +:+ "obj" +:+ b ->
      let d := PyStr.replace a "obj" "abc" +:+ "abc" +:+ PyStr.replace b "obj" "abc" in
      fst (export_asset_abc obj_file root_node w)
      = inr (PyStr.path_join d (PyStr.replace (PyStr.basename obj_file) ".obj" ".abc"))
      /\ d ∈ dirs (snd (export_asset_abc obj_file root_node w)))
  /\ (forall root_node w,
        let obj_file := root_dir +:+ "/obj/objects/a.obj" in
        fst (export_asset_abc obj_file root_node w)
        = inr (root_dir +:+ "/abc/abcects/a.abc")
        /\ (root_dir +:+ "/abc/abcects") ∈ dirs (snd (export_asset_abc obj_file root_node w))
        /\ root_dir +:+ "/abc/abcects/a.abc" <> root_dir +:+ "/abc/objects/a.abc").
Proof.
  split.
  - intros obj_file root_node w a b Hdir d.
    assert (Hd : abc_dir_of obj_file = d).
    { unfold abc_dir_of. rewrite Hdir.
      apply replace_occurrence; [discriminate | apply border_free_obj]. }
    rewrite export_asset_abc_made.
    + cbn [fst snd dirs emit]. split.
      * unfold abc_file_of. now rewrite Hd.
      * rewrite <- Hd. apply dir_made_there.
    + intros Hempty. apply abc_dir_of_empty in Hempty.
      rewrite Hdir in Hempty. destruct a; discriminate.
  - intros root_node w obj_file. subst obj_file.
    rewrite export_asset_abc_made by discriminate. cbn [fst snd dirs emit].
    split; [reflexivity | split].
    + apply (dir_made_there (root_dir +:+ "/abc/abcects")).
    + discriminate.
Qed.

End Landing.

(** ** The top-level loop *)
Section TopLevel.
Variable E : env.

Lemma import_asset_obj_log obj_file w :
  fst (import_asset_obj E obj_file w) = inr obj_file
  /\ log (snd (import_asset_obj E obj_file w)) = log w ++ import_events obj_file.
Proof.
  split; [reflexivity |].
  unfold import_asset_obj, bind, newFile, importFile, ret.
  cbn [snd log emit with_scene]. now rewrite <- app_assoc.
Qed.

Lemma import_asset_obj_eq obj_file w :
  import_asset_obj E obj_file w = (inr obj_file, imported E obj_file w).
Proof.
  unfold import_asset_obj, bind, newFile, importFile, ret, imported, emit,
    with_scene, import_events.
  cbn [scene dirs log]. now rewrite <- app_assoc.
Qed.

(** The rebuilding loop, turn by turn. *)
Lemma rebuild_items_eq items : forall loc w,
  for_each items rebuild_entry loc w = rebuilt_items items loc w.
Proof.
  induction items as [| [model hier] items IH]; intros loc w; [reflexivity |].
  cbn [for_each rebuilt_items]. unfold bind at 1.
  destruct hier as [s |]; [| reflexivity].
  destruct (tl (PyStr.split s "|")) as [| e0 rest] eqn:Hs.
  - now rewrite (rebuild_entry_short _ _ _ _ Hs).
  - rewrite (rebuild_entry_eq _ _ _ _ _ _ Hs).
    destruct (attach model (last_elem e0 rest) loc (link_chain e0 rest w))
      as [loc1 w2].
    unfold bind, PyNode, ret. destruct (scene w2 !! e0); [apply IH | reflexivity].
Qed.

Lemma rebuild_file_eq obj_file w :
  rebuild_asset_hierarchy E obj_file w = rebuilt_file E obj_file w.
Proof.
  unfold rebuild_asset_hierarchy, rebuilt_file, bind at 1, json_load.
  fold (hier_path obj_file).
  destruct (load_json E (hier_path obj_file)) as [e | [items |]];
    [reflexivity | | reflexivity].
  unfold bind at 1. cbn [iteritems]. unfold ret at 1. unfold bind.
  rewrite rebuild_items_eq.
  destruct (rebuilt_items items unbound _) as [[e | loc] w1]; [reflexivity |].
  now destruct (root_par_node loc).
Qed.

Lemma export_asset_abc_log obj_file root_node w :
  exists t3,
    log (snd (export_asset_abc obj_file root_node w)) = log w ++ t3
    /\ ((fst (export_asset_abc obj_file root_node w) = inr (abc_file_of obj_file)
         /\ export_events obj_file t3)
        \/ (fst (export_asset_abc obj_file root_node w) = inl OSError
            /\ abc_dir_of obj_file = ""
            /\ t3 = [EvMakeDirsError ""])).
Proof.
  destruct (String.eqb_spec (abc_dir_of obj_file) "") as [Hd | Hd].
  - rewrite (export_asset_abc_stuck _ _ _ Hd). exists [EvMakeDirsError ""].
    split; [reflexivity |]. right. auto.
  - rewrite (export_asset_abc_made _ _ _ Hd). cbn [fst snd log emit].
    unfold dir_made. destruct (bool_decide (abc_dir_of obj_file ∈ dirs w)).
    + exists ([] ++ [EvSelect root_node;
                     EvAbcExport (export_job (full_path_in w root_node)
                                    (abc_file_of obj_file))]).
      split; [now rewrite <- app_assoc |]. left. split; [reflexivity |].
      exists [], root_node,
        (export_job (full_path_in w root_node) (abc_file_of obj_file)).
      auto.
    + exists ([EvMakeDirs (abc_dir_of obj_file)]
              ++ [EvSelect root_node;
                  EvAbcExport (export_job (full_path_in w root_node)
                                 (abc_file_of obj_file))]).
      split; [cbn [log emit with_dirs]; now rewrite <- !app_assoc |].
      left. split; [reflexivity |].
      exists [EvMakeDirs (abc_dir_of obj_file)], root_node,
        (export_job (full_path_in w root_node) (abc_file_of obj_file)).
      auto.
Qed.

(** One turn of the top-level loop, stage by stage. *)
Lemma ingest_eq obj_file w :
  ingest E obj_file tt w
  = match rebuild_asset_hierarchy E obj_file (snd (import_asset_obj E obj_file w)) with
    | (inl e, wr) => (inl e, wr)
    | (inr root_node, wr) =>
        match export_asset_abc obj_file root_node wr with
        | (inl e, we) => (inl e, we)
        | (inr abc_file, we) =>
            (inr tt,
             emit (EvPrint ("Rebuilt and exported abc file to " +:+ abc_file)) we)
        end
    end.
Proof.
  unfold ingest, bind at 1.
  change (import_asset_obj E obj_file w)
    with (@inr exn string obj_file, snd (import_asset_obj E obj_file w)).
  cbv iota. unfold bind at 1.
  destruct (rebuild_asset_hierarchy E obj_file _) as [[e | root_node] wr];
    [reflexivity |].
  unfold bind.
  destruct (export_asset_abc obj_file root_node wr) as [[e | abc_file] we];
    reflexivity.
Qed.

(** ... and in closed form. *)
Lemma ingest_closed obj_file w :
  ingest E obj_file tt w = handled_file E obj_file w.
Proof.
  rewrite ingest_eq. unfold handled_file.
  rewrite import_asset_obj_eq. cbn [snd]. rewrite rebuild_file_eq.
  destruct (rebuilt_file E obj_file _) as [[e | root_node] wr]; [reflexivity |].
  now rewrite export_asset_abc_eq.
Qed.

Lemma loop_closed obj_files : forall w,
  for_each obj_files (ingest E) tt w = handled_files E obj_files w.
Proof.
  induction obj_files as [| o rest IH]; intros w; [reflexivity |].
  cbn [for_each handled_files]. unfold bind. rewrite ingest_closed.
  destruct (handled_file E o w) as [[e | []] w1]; [reflexivity | apply IH].
Qed.

(** One turn of the top-level loop: the stages in their order, or the
    import and a rebuilding that raises, or these and an export without
    a directory. *)
Lemma ingest_log obj_file w :
  exists tr,
    log (snd (ingest E obj_file tt w)) = log w ++ tr
    /\ ((fst (ingest E obj_file tt w) = inr tt
         /\ exists t2 t3,
              tr = import_events obj_file ++ t2 ++ t3 ++ report_events obj_file
              /\ rebuild_events obj_file t2 /\ export_events obj_file t3)
        \/ (exists e t2,
              fst (ingest E obj_file tt w) = inl e
              /\ tr = import_events obj_file ++ t2
              /\ rebuild_events obj_file t2)
        \/ (exists t2,
              fst (ingest E obj_file tt w) = inl OSError
              /\ tr = import_events obj_file ++ t2 ++ [EvMakeDirsError ""]
              /\ rebuild_events obj_file t2
              /\ abc_dir_of obj_file = "")).
Proof.
  rewrite ingest_eq.
  destruct (import_asset_obj_log obj_file w) as [_ Hi_log].
  set (wi := snd (import_asset_obj E obj_file w)) in *.
  destruct (rebuild_log E obj_file wi) as [t2 [Hr_log Hr_ev]].
  destruct (rebuild_asset_hierarchy E obj_file wi) as [[e | root_node] wr];
    cbn [fst snd] in *.
  - exists (import_events obj_file ++ t2). split.
    + now rewrite Hr_log, Hi_log, <- app_assoc.
    + right. left. exists e, t2. repeat split. exact Hr_ev.
  - destruct (export_asset_abc_log obj_file root_node wr)
      as [t3 [He_log [[He_res He_ev] | [He_res [Hd ->]]]]];
      destruct (export_asset_abc obj_file root_node wr) as [re we];
      cbn [fst snd] in *; subst re.
    + exists (import_events obj_file ++ t2 ++ t3 ++ report_events obj_file). split.
      * cbn [fst snd log emit]. rewrite He_log, Hr_log, Hi_log.
        unfold report_events. now rewrite <- !app_assoc.
      * left. split; [reflexivity |]. exists t2, t3. repeat split; assumption.
    + exists (import_events obj_file ++ t2 ++ [EvMakeDirsError ""]). split.
      * cbn [fst snd]. rewrite He_log, Hr_log, Hi_log. now rewrite <- !app_assoc.
      * right. right. exists t2. repeat split; assumption.
Qed.

Lemma loop_log_run obj_files : forall w,
  exists tr,
    log (snd (for_each obj_files (ingest E) tt w)) = log w ++ tr
    /\ loop_log obj_files (fst (for_each obj_files (ingest E) tt w)) tr.
Proof.
  induction obj_files as [| o rest IH]; intros w.
  - exists []. split; [simpl; now rewrite app_nil_r | constructor].
  - simpl for_each. unfold bind.
    destruct (ingest_log o w) as [tr [Hlog Hshape]].
    destruct (ingest E o tt w) as [[e | []] w1]; cbn [fst snd] in *.
    + destruct Hshape
        as [[Hok _] | [[e' [t2 [He [-> Hev]]]] | [t2 [He [-> [Hev Hd]]]]]];
        [discriminate | |]; injection He as ->.
      * exists (import_events o ++ t2). split; [exact Hlog |].
        now apply loop_abort.
      * exists (import_events o ++ t2 ++ [EvMakeDirsError ""]).
        split; [exact Hlog |]. now apply loop_abort_export.
    + destruct Hshape
        as [[_ [t2 [t3 [-> [Hr He]]]]] | [[e' [t2 [He _]]] | [t2 [He _]]]];
        [| discriminate | discriminate].
      destruct (IH w1) as [tr' [Hlog' Hloop]].
      exists (import_events o ++ t2 ++ t3 ++ report_events o ++ tr'). split.
      * rewrite Hlog', Hlog. now rewrite <- !app_assoc.
      * now apply loop_next.
Qed.

(** A loop that raises has stopped in the turn that raised: the files
    before it are done, the files behind it are not looked at. *)
Lemma handled_files_stop obj_files : forall w e w',
  handled_files E obj_files w = (inl e, w') ->
  exists done obj_file behind w1,
    obj_files = done ++ obj_file :: behind
    /\ handled_files E done w = (inr tt, w1)
    /\ handled_file E obj_file w1 = (inl e, w').
Proof.
  induction obj_files as [| o rest IH]; intros w e w' Hrun; [discriminate |].
  cbn [handled_files] in Hrun.
  destruct (handled_file E o w) as [[e1 | []] w1] eqn:Hturn.
  - injection Hrun as <- <-. exists [], o, rest, w. auto.
  - destruct (IH w1 e w' Hrun) as [done [f [behind [w2 [-> [Hdone Hf]]]]]].
    exists (o :: done), f, behind, w2. split; [reflexivity |].
    split; [| exact Hf]. cbn [handled_files]. now rewrite Hturn.
Qed.

(** C4, as the code has it: the script is four functions for three
    stages: [get_asset_objs] discovers the OBJ files, [import_asset_obj]
    and [rebuild_asset_hierarchy] import a file into a new scene and
    rebuild its hierarchy from the sidecar (chain by chain, model by
    model), [export_asset_abc] exports the cache.  The script first
    discovers the files and then runs its loop over them in the order of
    discovery; a turn of the loop imports, rebuilds, exports and reports,
    and only then the turn of the next file starts; the log shows the
    stages in this order.  The first turn in which a stage raises ends
    the script: the files before it are handled to the end, the files
    behind it are neither imported, rebuilt nor exported. *)
Theorem main_stages w :
  match listdir E (PyStr.path_join root_dir "obj") with
  | inl e => main E w = (inl e, w)
  | inr assets =>
      let obj_files := discovered E (PyStr.path_join root_dir "obj") assets in
      (get_asset_objs E (PyStr.path_join root_dir "obj") w = (inr obj_files, w)
       /\ (forall o u, import_asset_obj E o u = (inr o, imported E o u))
       /\ (forall o u, rebuild_asset_hierarchy E o u = rebuilt_file E o u)
       /\ (forall o n u, export_asset_abc o n u = exported_file o n u))
      /\ main E w = handled_files E obj_files w
      /\ (exists tr,
            log (snd (main E w)) = log w ++ tr
            /\ loop_log obj_files (fst (main E w)) tr)
      /\ (forall e, fst (main E w) = inl e ->
            exists done obj_file behind w1,
              obj_files = done ++ obj_file :: behind
              /\ handled_files E done w = (inr tt, w1)
              /\ handled_file E obj_file w1 = (inl e, snd (main E w)))
  end.
Proof.
  unfold main, bind. rewrite get_asset_objs_run.
  destruct (listdir E (PyStr.path_join root_dir "obj")) as [e | assets].
  - reflexivity.
  - cbv zeta. split.
    { split; [reflexivity |]. split; [apply import_asset_obj_eq |].
      split; [apply rebuild_file_eq | apply export_asset_abc_eq]. }
    split; [apply loop_closed |]. split; [apply loop_log_run |].
    intros e He. rewrite loop_closed in He |- *.
    apply handled_files_stop.
    destruct (handled_files E _ w) as [r w']. cbn [fst snd] in *. now subst r.
Qed.

End TopLevel.

(** ** No scene state from one turn to the next *)
Section Stateless.
Variable E : env.

Lemma scene_only_ret {A} (a : A) : scene_only (ret a).
Proof.
  intros w1 w2 H. repeat split; [exact H |].
  exists []. now rewrite !app_nil_r.
Qed.

Lemma scene_only_raise {A} (e : exn) : scene_only (@raise A e).
Proof.
  intros w1 w2 H. repeat split; [exact H |].
  exists []. now rewrite !app_nil_r.
Qed.

Lemma scene_only_tell e : scene_only (tell e).
Proof. intros w1 w2 H. repeat split; [exact H |]. now exists [e]. Qed.

Lemma scene_only_bind {A B} (m : M A) (k : A -> M B) :
  scene_only m -> (forall a, scene_only (k a)) -> scene_only (bind m k).
Proof.
  intros Hm Hk w1 w2 H. destruct (Hm w1 w2 H) as [Hres [Hsc [t [L1 L2]]]].
  unfold bind.
  destruct (m w1) as [r1 u1], (m w2) as [r2 u2]. cbn [fst snd] in *. subst r2.
  destruct r1 as [e | a].
  - cbn [fst snd]. repeat split; [exact Hsc |]. now exists t.
  - destruct (Hk a u1 u2 Hsc) as [Hres' [Hsc' [t' [L1' L2']]]].
    repeat split; [exact Hres' | exact Hsc' |].
    exists (t ++ t'). now rewrite L1', L2', L1, L2, !app_assoc.
Qed.

Lemma scene_only_try {A} (m h : M A) :
  scene_only m -> scene_only h -> scene_only (try_except m h).
Proof.
  intros Hm Hh w1 w2 H. destruct (Hm w1 w2 H) as [Hres [Hsc [t [L1 L2]]]].
  unfold try_except.
  destruct (m w1) as [r1 u1], (m w2) as [r2 u2]. cbn [fst snd] in *. subst r2.
  destruct r1 as [e | a].
  - destruct (Hh u1 u2 Hsc) as [Hres' [Hsc' [t' [L1' L2']]]].
    repeat split; [exact Hres' | exact Hsc' |].
    exists (t ++ t'). now rewrite L1', L2', L1, L2, !app_assoc.
  - cbn [fst snd]. repeat split; [exact Hsc |]. now exists t.
Qed.

Lemma scene_only_for_each {A S} (xs : list A) (body : A -> S -> M S) :
  (forall x s, scene_only (body x s)) ->
  forall s, scene_only (for_each xs body s).
Proof.
  intros Hbody. induction xs as [| x xs IH]; intros s; simpl.
  - apply scene_only_ret.
  - apply scene_only_bind; [apply Hbody | exact IH].
Qed.

Lemma scene_only_PyNode n : scene_only (PyNode n).
Proof.
  intros w1 w2 H. unfold PyNode. rewrite H. destruct (scene w2 !! n).
  - repeat split; [exact H |]. now exists [EvPyNode n true].
  - repeat split; [exact H |]. now exists [EvPyNode n false].
Qed.

Lemma scene_only_createNode n : scene_only (createNode n).
Proof.
  intros w1 w2 H. unfold createNode. cbn [fst snd scene emit with_scene log].
  rewrite H. repeat split. now exists [EvCreateNode n].
Qed.

Lemma scene_only_setParent c p : scene_only (setParent c p).
Proof.
  intros w1 w2 H. unfold setParent. cbn [fst snd scene emit with_scene log].
  rewrite H. repeat split. now exists [EvSetParent c p].
Qed.

Lemma scene_only_py_index (l : list string) i : scene_only (py_index l i).
Proof.
  unfold py_index. destruct (_ <? 0)%Z; [apply scene_only_raise |].
  destruct (nth_error l _); [apply scene_only_ret | apply scene_only_raise].
Qed.

Lemma scene_only_rebuild_entry mh loc : scene_only (rebuild_entry mh loc).
Proof.
  destruct mh as [model hier]. unfold rebuild_entry.
  apply scene_only_bind.
  { destruct hier; [apply scene_only_ret | apply scene_only_raise]. }
  intros l0. apply scene_only_bind.
  { destruct l0; [apply scene_only_raise | apply scene_only_ret]. }
  intros hs. apply scene_only_bind; [apply scene_only_py_index |].
  intros model_par. apply scene_only_bind; [apply scene_only_py_index |].
  intros root_par. apply scene_only_bind.
  { apply scene_only_for_each. intros [index elem] []. unfold reparent_elem.
    destruct (negb _); [| apply scene_only_ret].
    apply scene_only_bind; [apply scene_only_py_index |]. intros elem_par.
    apply scene_only_bind.
    { apply scene_only_try; [apply scene_only_PyNode | apply scene_only_createNode]. }
    intros n1. apply scene_only_bind.
    { apply scene_only_try; [apply scene_only_PyNode | apply scene_only_createNode]. }
    intros n2. apply scene_only_setParent. }
  intros _. apply scene_only_bind.
  { apply scene_only_try.
    - apply scene_only_bind; [apply scene_only_PyNode |]. intros n1.
      apply scene_only_bind; [apply scene_only_PyNode |]. intros n2.
      apply scene_only_bind; [apply scene_only_setParent |]. intros _.
      apply scene_only_ret.
    - apply scene_only_bind; [apply scene_only_tell |]. intros _.
      apply scene_only_ret. }
  intros loc1. apply scene_only_bind; [apply scene_only_PyNode |].
  intros r. apply scene_only_ret.
Qed.

Lemma scene_only_json_load f : scene_only (json_load E f).
Proof.
  intros w1 w2 H. unfold json_load. destruct (load_json E f).
  - repeat split; [exact H |]. now exists [EvOpen f].
  - repeat split; [exact H |]. now exists [EvOpen f].
Qed.

Lemma scene_only_rebuild obj_file : scene_only (rebuild_asset_hierarchy E obj_file).
Proof.
  unfold rebuild_asset_hierarchy.
  apply scene_only_bind; [apply scene_only_json_load |]. intros hier_data.
  apply scene_only_bind.
  { destruct hier_data; [apply scene_only_ret | apply scene_only_raise]. }
  intros items. apply scene_only_bind.
  { apply scene_only_for_each. intros x s. apply scene_only_rebuild_entry. }
  intros loc. destruct (root_par_node loc);
    [apply scene_only_ret | apply scene_only_raise].
Qed.

(** The import starts from a new scene whatever the scene was. *)
Lemma import_resets obj_file w1 w2 :
  scene (snd (import_asset_obj E obj_file w1))
  = scene (snd (import_asset_obj E obj_file w2)).
Proof. reflexivity. Qed.

Lemma but_makedirs_app l1 l2 :
  but_makedirs (l1 ++ l2) = but_makedirs l1 ++ but_makedirs l2.
Proof. apply List.filter_app. Qed.

Lemma full_path_in_scene w1 w2 n :
  scene w1 = scene w2 -> full_path_in w1 n = full_path_in w2 n.
Proof. intros H. unfold full_path_in, fullPath. cbn [fst]. now rewrite H. Qed.

Lemma dir_made_log d w :
  scene (dir_made d w) = scene w
  /\ exists mk, log (dir_made d w) = log w ++ mk /\ but_makedirs mk = [].
Proof.
  unfold dir_made. destruct (bool_decide (d ∈ dirs w)).
  - split; [reflexivity |]. exists []. now rewrite app_nil_r.
  - split; [reflexivity |]. now exists [EvMakeDirs d].
Qed.

(** C7: one turn of the top-level loop gives the same outcome, leaves
    the same scene and issues the same commands to the host (the import,
    the commands of the rebuilding, the selection, the export job, the
    report), the calls of [os.makedirs] apart, from any two worlds, so
    also from the world that the turns for earlier files have left: the
    import starts from a new scene, and nothing after it looks at
    anything but the scene. *)
Theorem ingest_stateless obj_file w1 w2 :
  fst (ingest E obj_file tt w1) = fst (ingest E obj_file tt w2)
  /\ scene (snd (ingest E obj_file tt w1)) = scene (snd (ingest E obj_file tt w2))
  /\ exists t1 t2,
       log (snd (ingest E obj_file tt w1)) = log w1 ++ t1
       /\ log (snd (ingest E obj_file tt w2)) = log w2 ++ t2
       /\ but_makedirs t1 = but_makedirs t2
       /\ abc_jobs t1 = abc_jobs t2.
Proof.
  rewrite !ingest_eq.
  destruct (import_asset_obj_log E obj_file w1) as [_ Hi1].
  destruct (import_asset_obj_log E obj_file w2) as [_ Hi2].
  pose proof (import_resets obj_file w1 w2) as Hsc.
  set (u1 := snd (import_asset_obj E obj_file w1)) in *.
  set (u2 := snd (import_asset_obj E obj_file w2)) in *.
  destruct (scene_only_rebuild obj_file u1 u2 Hsc) as [Hres [Hsc' [t [L1 L2]]]].
  destruct (rebuild_asset_hierarchy E obj_file u1) as [r1 v1].
  destruct (rebuild_asset_hierarchy E obj_file u2) as [r2 v2].
  cbn [fst snd] in *. subst r2. destruct r1 as [e | root_node].
  - cbn [fst snd]. repeat split; [exact Hsc' |].
    exists (import_events obj_file ++ t), (import_events obj_file ++ t).
    rewrite L1, L2, Hi1, Hi2, <- !app_assoc. auto.
  - destruct (String.eqb_spec (abc_dir_of obj_file) "") as [Hd | Hd].
    { rewrite !(export_asset_abc_stuck _ _ _ Hd). cbn [fst snd scene emit log].
      repeat split; [exact Hsc' |].
      exists (import_events obj_file ++ t ++ [EvMakeDirsError ""]),
             (import_events obj_file ++ t ++ [EvMakeDirsError ""]).
      rewrite L1, L2, Hi1, Hi2, <- !app_assoc. auto. }
    rewrite !(export_asset_abc_made _ _ _ Hd). cbn [fst snd scene emit log].
    destruct (dir_made_log (abc_dir_of obj_file) v1) as [Hd1 [mk1 [Hm1 Hv1]]].
    destruct (dir_made_log (abc_dir_of obj_file) v2) as [Hd2 [mk2 [Hm2 Hv2]]].
    rewrite (full_path_in_scene v1 v2 root_node Hsc').
    set (tail := [EvSelect root_node;
                  EvAbcExport (export_job (full_path_in v2 root_node)
                                 (abc_file_of obj_file));
                  EvPrint ("Rebuilt and exported abc file to "
                           +:+ abc_file_of obj_file)]).
    repeat split; [congruence |].
    exists (import_events obj_file ++ t ++ mk1 ++ tail),
           (import_events obj_file ++ t ++ mk2 ++ tail).
    rewrite Hm1, Hm2, L1, L2, Hi1, Hi2. subst tail.
    repeat split.
    + now rewrite <- !app_assoc.
    + now rewrite <- !app_assoc.
    + rewrite !but_makedirs_app, Hv1, Hv2. reflexivity.
    + rewrite !abc_jobs_app.
      assert (Hj : forall mk, but_makedirs mk = [] -> abc_jobs mk = []).
      { clear. induction mk as [| x mk IH]; [reflexivity |].
        destruct x; cbn; try discriminate. exact IH. }
      now rewrite (Hj mk1 Hv1), (Hj mk2 Hv2).
Qed.

End Stateless.

(** ** The hierarchy that results *)
Section Parents.

Lemma ensure_lookup n c v w :
  scene w !! c = Some v -> scene (ensure n w) !! c = Some v.
Proof.
  intros Hc. unfold ensure. destruct (scene w !! n) eqn:Hn; cbn [scene emit with_scene].
  - exact Hc.
  - rewrite lookup_insert_ne; [exact Hc | congruence].
Qed.

Lemma reparent_lookup c p x w :
  x <> c -> scene (reparent c p w) !! x = scene w !! x.
Proof.
  intros Hne. unfold reparent. cbn [scene emit with_scene].
  now rewrite lookup_insert_ne.
Qed.

Lemma adjacent_cons p c e0 e rest :
  adjacent p c (e0 :: e :: rest) ->
  (p = e0 /\ c = e) \/ adjacent p c (e :: rest).
Proof.
  intros [l1 [l2 H]]. destruct l1 as [| x l1]; simpl in H.
  - injection H as <- <- _. now left.
  - injection H as _ H. right. now exists l1, l2.
Qed.

(** On a path of distinct names the inner loop leaves every element
    but the first with the element before it as parent. *)
Lemma link_chain_parents rest : forall e0 w p c,
  NoDup (e0 :: rest) -> adjacent p c (e0 :: rest) ->
  scene (link_chain e0 rest w) !! c = Some (Some p).
Proof.
  induction rest as [| e rest IH]; intros e0 w p c Hnd Hadj.
  - destruct Hadj as [l1 [l2 H]].
    destruct l1 as [| x [| y l1]]; simpl in H; discriminate.
  - cbn [link_chain]. apply adjacent_cons in Hadj as [[-> ->] | Hadj].
    + apply reparent_child.
    + inversion Hnd as [| ? ? Hnotin Hnd']; subst.
      assert (Hce : c <> e).
      { destruct Hadj as [l1 [l2 H]]. inversion Hnd' as [| ? ? He _]; subst.
        intros ->. apply He.
        destruct l1 as [| x l1]; simpl in H; injection H as _ H;
          rewrite H; set_solver. }
      rewrite reparent_lookup by exact Hce.
      apply ensure_lookup, ensure_lookup. now apply IH.
Qed.

End Parents.

Lemma occurs_occursb old s : occurs old s -> occursb old s = true.
Proof.
  intros [a [b ->]]. induction a as [| c a IH].
  - rewrite append_nil_l. destruct (old +:+ b) eqn:Hob.
    + destruct old; [reflexivity | discriminate].
    + cbn [occursb]. rewrite <- Hob, prefix_append. reflexivity.
  - rewrite append_cons. cbn [occursb]. rewrite IH. apply orb_true_r.
Qed.

(** ** The script on the small dataset *)
Section OnTheIsland.

Example main_island_outcome :
  fst (main Demo.island Demo.fresh) = inl UnboundLocalError.
Proof. vm_compute. reflexivity. Qed.

Example main_island_jobs :
  abc_jobs (log (snd (main Demo.island Demo.fresh)))
  = [exporter_flags +:+ " -root |root -file "
       +:+ root_dir +:+ "/abc/tree/archives/leaf.abc";
     exporter_flags +:+ " -root |root -file "
       +:+ root_dir +:+ "/abc/tree/tree.abc"].
Proof. vm_compute. reflexivity. Qed.

Example main_island_makedirs :
  makedirs_calls (log (snd (main Demo.island Demo.fresh)))
  = [root_dir +:+ "/abc/tree/archives"].
Proof. vm_compute. reflexivity. Qed.

Example rebuild_island_tree :
  let obj_file := Demo.obj_dir +:+ "/tree/tree.obj" in
  let w := snd (import_asset_obj Demo.island obj_file Demo.fresh) in
  let s := scene (snd (rebuild_asset_hierarchy Demo.island obj_file w)) in
  map (fun n => s !! n) ["root"; "grp"; "sub"; "trunk"; "crown"; "leaf"]
  = [Some None; Some (Some "root"); Some (Some "grp"); Some (Some "sub");
     Some (Some "grp"); None].
Proof. vm_compute. reflexivity. Qed.

Lemma get_asset_objs_spec_witness :
  get_asset_objs Demo.island Demo.obj_dir Demo.fresh
  = (inr [Demo.obj_dir +:+ "/tree/archives/leaf.obj";
          Demo.obj_dir +:+ "/tree/tree.obj";
          Demo.obj_dir +:+ "/rock/rock_a.obj";
          Demo.obj_dir +:+ "/rock/rock_b.obj"], Demo.fresh).
Proof.
  pose proof (get_asset_objs_spec Demo.island Demo.obj_dir Demo.fresh) as H.
  change (listdir Demo.island Demo.obj_dir) with (@inr exn _ ["tree"; "rock"]) in H.
  cbv beta iota in H. destruct H as [H _]. rewrite H.
  vm_compute. reflexivity.
Defined.


Lemma rebuild_entry_model_missing_witness :
  rebuild_entry ("trunk", JString "|root|grp") unbound Demo.fresh
  = (inr {| model_node := Some PyNone; root_par_node := Some "root" |},
     {| scene := {[ "root" := None; "grp" := Some "root" ]};
        dirs := ∅;
        log := [EvPyNode "grp" false; EvCreateNode "grp";
                EvPyNode "root" false; EvCreateNode "root";
                EvSetParent "grp" "root";
                EvPyNode "trunk" false; EvPrint model_missing;
                EvPyNode "root" true] |}).
Proof.
  assert (Hs : tl (PyStr.split "|root|grp" "|") = "root" :: ["grp"])
    by reflexivity.
  assert (Hmiss : scene (link_chain "root" ["grp"] Demo.fresh) !! "trunk" = None
                  \/ scene (link_chain "root" ["grp"] Demo.fresh)
                     !! last_elem "root" ["grp"] = None)
    by (left; vm_compute; reflexivity).
  destruct (rebuild_entry_model_missing "trunk" "|root|grp" unbound Demo.fresh
              "root" ["grp"] Hs Hmiss) as [w2 [_ [_ [_ [Hgo _]]]]].
  vm_compute. reflexivity.
Defined.

Lemma rebuild_returns_last_root_witness :
  fst (rebuild_asset_hierarchy Demo.island (Demo.obj_dir +:+ "/rock/rock_a.obj")
         Demo.fresh)
  = inl UnboundLocalError
  /\ exists before model s rest,
       load_json Demo.island (hier_path (Demo.obj_dir +:+ "/tree/tree.obj"))
       = inr (JObject (before ++ [(model, JString s)]))
       /\ tl (PyStr.split s "|") = "root" :: rest.
Proof.
  split.
  - destruct (rebuild_returns_last_root Demo.island
                (Demo.obj_dir +:+ "/rock/rock_a.obj") Demo.fresh) as [Hempty _].
    assert (Hload : load_json Demo.island
                      (hier_path (Demo.obj_dir +:+ "/rock/rock_a.obj"))
                    = inr (JObject [])) by (vm_compute; reflexivity).
    destruct (Hempty Hload) as [Heq _]. rewrite Heq. reflexivity.
  - destruct (rebuild_returns_last_root Demo.island
                (Demo.obj_dir +:+ "/tree/tree.obj") Demo.fresh) as [_ Hret].
    apply (Hret "root"
             (snd (rebuild_asset_hierarchy Demo.island
                     (Demo.obj_dir +:+ "/tree/tree.obj") Demo.fresh))).
    vm_compute. reflexivity.
Defined.

Lemma sidecar_path_spec_witness :
  PyStr.replace "/d/tree.obj" ".obj" ".hier" = "/d/tree.hier"
  /\ fst (rebuild_asset_hierarchy Demo.island "/d/tree.obj" Demo.fresh)
     = inl IOError.
Proof.
  destruct (sidecar_path_spec Demo.island "/d/tree.obj" Demo.fresh)
    as [_ [Hraise [_ Hsuffix]]].
  split.
  - apply (Hsuffix "/d/tree"); [reflexivity |].
    intros Hocc. apply occurs_occursb in Hocc. vm_compute in Hocc. discriminate.
  - apply Hraise. vm_compute. reflexivity.
Defined.

Lemma abc_dir_rewrites_every_obj_witness :
  fst (export_asset_abc "/data/obj/objects/a.obj" "root" Demo.fresh)
  = inr "/data/abc/abcects/a.abc"
  /\ "/data/abc/abcects" ∈ dirs (snd (export_asset_abc "/data/obj/objects/a.obj"
                                        "root" Demo.fresh)).
Proof.
  destruct abc_dir_rewrites_every_obj as [Hall _].
  apply (Hall "/data/obj/objects/a.obj" "root" Demo.fresh "/data/" "/objects").
  reflexivity.
Defined.

End OnTheIsland.

(** ** What the rebuilding leaves alone *)
Section Kept.
Variable E : env.

Lemma grows_refl w : grows w w.
Proof. split; auto. Qed.

Lemma grows_trans w1 w2 w3 : grows w1 w2 -> grows w2 w3 -> grows w1 w3.
Proof.
  intros [D1 P1] [D2 P2]. split; [congruence |]. intros n Hn. auto.
Qed.

Lemma keeps_ret {A} (a : A) : keeps grows (ret a).
Proof. intros w. apply grows_refl. Qed.

Lemma keeps_raise {A} (e : exn) : keeps grows (@raise A e).
Proof. intros w. apply grows_refl. Qed.

Lemma keeps_tell e : keeps grows (tell e).
Proof. intros w. split; [reflexivity | auto]. Qed.

Lemma keeps_bind {A B} (m : M A) (k : A -> M B) :
  keeps grows m -> (forall a, keeps grows (k a)) -> keeps grows (bind m k).
Proof.
  intros Hm Hk w. specialize (Hm w). unfold bind.
  destruct (m w) as [[e | a] w1]; cbn [snd] in *; [exact Hm |].
  eapply grows_trans; [exact Hm | apply Hk].
Qed.

Lemma keeps_try {A} (m h : M A) :
  keeps grows m -> keeps grows h -> keeps grows (try_except m h).
Proof.
  intros Hm Hh w. specialize (Hm w). unfold try_except.
  destruct (m w) as [[e | a] w1]; cbn [snd] in *; [| exact Hm].
  eapply grows_trans; [exact Hm | apply Hh].
Qed.

Lemma keeps_for_each {A S} (xs : list A) (body : A -> S -> M S) :
  (forall x s, keeps grows (body x s)) ->
  forall s, keeps grows (for_each xs body s).
Proof.
  intros Hbody. induction xs as [| x xs IH]; intros s; simpl.
  - apply keeps_ret.
  - apply keeps_bind; [apply Hbody | exact IH].
Qed.

Lemma keeps_PyNode n : keeps grows (PyNode n).
Proof.
  intros w. unfold PyNode.
  destruct (scene w !! n); (split; [reflexivity | auto]).
Qed.

Lemma keeps_createNode n : keeps grows (createNode n).
Proof.
  intros w. split; [reflexivity |]. intros m Hm.
  unfold present, createNode in *. cbn [snd scene emit with_scene].
  destruct (decide (n = m)) as [-> | Hne].
  - rewrite lookup_insert_eq. eauto.
  - now rewrite lookup_insert_ne.
Qed.

Lemma keeps_setParent c p : keeps grows (setParent c p).
Proof.
  intros w. split; [reflexivity |]. intros m Hm.
  rewrite setParent_reparent. now apply reparent_keeps.
Qed.

Lemma keeps_json_load f : keeps grows (json_load E f).
Proof.
  intros w. unfold json_load.
  destruct (load_json E f); (split; [reflexivity | auto]).
Qed.

Lemma keeps_py_index (l : list string) i : keeps grows (py_index l i).
Proof.
  unfold py_index. destruct (_ <? 0)%Z; [apply keeps_raise |].
  destruct (nth_error l _); [apply keeps_ret | apply keeps_raise].
Qed.

(** The rules above, applied along the shape of a program. *)
Ltac keeps_walk :=
  repeat first
    [ apply keeps_ret | apply keeps_raise | apply keeps_tell
    | apply keeps_py_index
    | apply keeps_PyNode | apply keeps_createNode | apply keeps_setParent
    | apply keeps_json_load | apply keeps_try
    | apply keeps_bind; [| intros ?]
    | apply keeps_for_each; intros ? ?
    | match goal with
      | |- keeps _ (if ?b then _ else _) => destruct b
      | |- keeps _ (match ?x with Some _ => _ | None => _ end) => destruct x
      | |- keeps _ (match ?x with [] => _ | _ :: _ => _ end) => destruct x
      | |- keeps _ (match ?x with JString _ => _ | JNotString => _ end) =>
          destruct x
      | |- keeps _ (match ?x with JObject _ => _ | JNotObject => _ end) =>
          destruct x
      | |- keeps _ (let (_, _) := ?p in _) => destruct p
      end ].

Lemma keeps_rebuild_entry mh loc : keeps grows (rebuild_entry mh loc).
Proof.
  destruct mh as [model hier].
  unfold rebuild_entry, str_split, pop0, reparent_elem, node_or_create, print.
  keeps_walk.
Qed.

Lemma keeps_rebuild obj_file : keeps grows (rebuild_asset_hierarchy E obj_file).
Proof.
  unfold rebuild_asset_hierarchy, iteritems. keeps_walk.
  apply keeps_rebuild_entry.
Qed.

(** X3: [rebuild_asset_hierarchy] never removes a node and never touches
    the directories, whether it returns or raises: a node that is in the
    scene before the call, such as one that the import has brought, is in
    the scene after it, and the directories that exist are the same. *)
Theorem rebuild_keeps_nodes obj_file w :
  dirs (snd (rebuild_asset_hierarchy E obj_file w)) = dirs w
  /\ forall n, present n w ->
               present n (snd (rebuild_asset_hierarchy E obj_file w)).
Proof.
  exact (keeps_rebuild obj_file w).
Qed.

End Kept.

(** ** How a turn of the rebuilding loop can fail, and what it returns *)
Section Turns.
Variable E : env.

Lemma split_no_sep c s : mentions c s = false -> PyStr.split s c = [s].
Proof.
  induction s as [| a s IH]; intros H; [reflexivity |].
  cbn [mentions] in H. apply orb_false_iff in H as [Ha Hs].
  cbn [PyStr.split]. now rewrite Ha, (IH Hs).
Qed.

Lemma split_at_sep c p q :
  mentions c p = false ->
  PyStr.split (p +:+ String c q) c = p :: PyStr.split q c.
Proof.
  induction p as [| a p IH]; intros H.
  - rewrite append_nil_l. cbn [PyStr.split]. now rewrite Ascii.eqb_refl.
  - cbn [mentions] in H. apply orb_false_iff in H as [Ha Hp].
    rewrite append_cons. cbn [PyStr.split]. now rewrite Ha, (IH Hp).
Qed.

(** X1: three ways in which a turn of the loop of
    [rebuild_asset_hierarchy] raises.  A value that is not a string
    raises [AttributeError] and a string without a pipe raises
    [IndexError], both before any command reaches the host.  A path with
    one pipe keeps a single element; when no node of that name is in the
    scene, the lookups of the [try] block fail, the message is printed,
    and the last lookup of the turn raises the host's error; the scene
    and the directories are as they were. *)
Theorem rebuild_entry_raises model loc w :
  rebuild_entry (model, JNotString) loc w = (inl AttributeError, w)
  /\ (forall s, mentions "|" s = false ->
        rebuild_entry (model, JString s) loc w = (inl IndexError, w))
  /\ (forall p e0,
        mentions "|" p = false -> mentions "|" e0 = false -> ~ present e0 w ->
        exists w' tried,
          rebuild_entry (model, JString (p +:+ "|" +:+ e0)) loc w
          = (inl MayaNodeError, w')
          /\ scene w' = scene w /\ dirs w' = dirs w
          /\ log w' = log w ++ tried
                        ++ [EvPrint model_missing; EvPyNode e0 false]
          /\ (tried = [EvPyNode model false]
              \/ tried = [EvPyNode model true; EvPyNode e0 false])).
Proof.
  split; [reflexivity |]. split.
  - intros s Hs. apply rebuild_entry_short.
    now rewrite (split_no_sep _ _ Hs).
  - intros p e0 Hp He0 Habsent.
    assert (Hsplit : tl (PyStr.split (p +:+ "|" +:+ e0) "|") = [e0]).
    { rewrite append_cons, append_nil_l, (split_at_sep _ _ _ Hp).
      now rewrite (split_no_sep _ _ He0). }
    rewrite (rebuild_entry_eq _ _ _ _ _ _ Hsplit).
    assert (Hnone : scene w !! e0 = None).
    { destruct (scene w !! e0) as [x |] eqn:Hx; [| reflexivity].
      exfalso. apply Habsent. now exists x. }
    cbn [link_chain last_elem List.last]. unfold attach, last_elem.
    cbn [List.last]. rewrite Hnone.
    destruct (scene w !! model) as [pm |].
    + eexists. exists [EvPyNode model true; EvPyNode e0 false].
      unfold bind, PyNode. cbn [scene emit]. rewrite Hnone.
      split; [reflexivity |]. split; [reflexivity |]. split; [reflexivity |].
      split; [cbn [log emit]; now rewrite <- !app_assoc | now right].
    + eexists. exists [EvPyNode model false].
      unfold bind, PyNode. cbn [scene emit]. rewrite Hnone.
      split; [reflexivity |]. split; [reflexivity |]. split; [reflexivity |].
      split; [cbn [log emit]; now rewrite <- !app_assoc | now left].
Qed.

(** X2: [rebuild_asset_hierarchy] stops at the first item whose turn
    raises: it raises what that turn raises and leaves the world as that
    turn left it, with all that the turns before it have done; the items
    behind are never looked at. *)
Theorem rebuild_stops_at_first_failure obj_file w before model hier behind
    loc w1 e w2 :
  load_json E (hier_path obj_file)
  = inr (JObject (before ++ (model, hier) :: behind)) ->
  for_each before rebuild_entry unbound (emit (EvOpen (hier_path obj_file)) w)
  = (inr loc, w1) ->
  rebuild_entry (model, hier) loc w1 = (inl e, w2) ->
  rebuild_asset_hierarchy E obj_file w = (inl e, w2).
Proof.
  intros Hload Hbefore Hturn.
  rewrite (rebuild_on_items _ _ _ _ Hload), for_each_app.
  erewrite bind_ok by exact Hbefore.
  simpl for_each. erewrite bind_raise by exact Hturn. reflexivity.
Qed.

(** A turn that ends normally has found the first kept path element in
    the scene. *)
Lemma rebuild_entry_root_present mh loc w loc' w' :
  rebuild_entry mh loc w = (inr loc', w') ->
  exists e0, root_par_node loc' = Some e0 /\ present e0 w'.
Proof.
  destruct mh as [model hier]. intros Hrun.
  destruct hier as [s |]; [| discriminate].
  destruct (tl (PyStr.split s "|")) as [| e0 rest] eqn:Hs.
  - rewrite (rebuild_entry_short _ _ _ _ Hs) in Hrun. discriminate.
  - rewrite (rebuild_entry_eq _ _ _ _ _ _ Hs) in Hrun.
    destruct (attach model (last_elem e0 rest) loc (link_chain e0 rest w))
      as [loc1 w2].
    unfold bind, PyNode, ret in Hrun.
    destruct (scene w2 !! e0) as [pe |] eqn:He0; [| discriminate].
    injection Hrun as <- <-. exists e0. split; [reflexivity |].
    exists pe. exact He0.
Qed.

(** X4: the node that [rebuild_asset_hierarchy] returns is in the scene
    it leaves, so [export_asset_abc] is always given a node that
    exists. *)
Theorem rebuild_returns_present_node obj_file w n w' :
  rebuild_asset_hierarchy E obj_file w = (inr n, w') -> present n w'.
Proof.
  intros Hrun.
  destruct (load_json E (hier_path obj_file)) as [e | [items |]] eqn:Hload.
  - unfold rebuild_asset_hierarchy, json_load, bind in Hrun.
    fold (hier_path obj_file) in Hrun. rewrite Hload in Hrun. discriminate.
  - rewrite (rebuild_on_items _ _ _ _ Hload) in Hrun.
    destruct (for_each items rebuild_entry unbound _) as [[e | loc] w1] eqn:Hloop;
      [discriminate |].
    destruct (root_par_node loc) as [r |] eqn:Hr; [| discriminate].
    injection Hrun as -> ->.
    destruct items as [| it items _] using rev_ind.
    + simpl in Hloop. unfold ret in Hloop. injection Hloop as <- _. discriminate.
    + rewrite for_each_app in Hloop.
      apply bind_inv in Hloop as [loc1 [u1 [_ Hlast]]].
      simpl in Hlast. apply bind_inv in Hlast as [loc2 [u2 [Hentry Hret]]].
      unfold ret in Hret. injection Hret as <- <-.
      apply rebuild_entry_root_present in Hentry as [e0 [He0 Hpres]].
      rewrite Hr in He0. injection He0 as <-. exact Hpres.
  - unfold rebuild_asset_hierarchy, json_load, bind in Hrun.
    fold (hier_path obj_file) in Hrun. rewrite Hload in Hrun. discriminate.
Qed.

End Turns.

(** ** The hierarchy a turn builds *)
Section Built.

(** X5: for a path of distinct names that does not hold the name of the
    model, a turn that finds the node named [model] (and the node named
    by a path of a single element) leaves the whole chain in the scene:
    every kept path element but the first has the element before it as
    parent, and the model has the last path element as parent. *)
Theorem rebuild_entry_hierarchy model s loc w e0 rest :
  tl (PyStr.split s "|") = e0 :: rest ->
  NoDup (e0 :: rest) ->
  model ∉ e0 :: rest ->
  present model w ->
  rest <> [] \/ present e0 w ->
  let w' := snd (rebuild_entry (model, JString s) loc w) in
  (forall p c, adjacent p c (e0 :: rest) -> scene w' !! c = Some (Some p))
  /\ scene w' !! model = Some (Some (last_elem e0 rest)).
Proof.
  intros Hs Hnd Hmodel Hpm Hroot w'. subst w'.
  rewrite (rebuild_entry_eq _ _ _ _ _ _ Hs).
  set (w1 := link_chain e0 rest w).
  assert (Hm1 : present model w1) by now apply link_chain_keeps.
  assert (Hp1 : present (last_elem e0 rest) w1).
  { destruct Hroot as [Hne | He0].
    - now apply link_chain_last.
    - destruct rest as [| e rest]; [exact He0 |].
      apply link_chain_last. discriminate. }
  unfold attach. destruct Hm1 as [pm Hm1]. destruct Hp1 as [pp Hp1].
  rewrite Hm1, Hp1.
  assert (Hsc : forall w2,
            scene (snd ((let* r := PyNode e0 in
                         ret (set_root_par_node
                                (set_model_node loc (PyNodeObj model)) r)) w2))
            = scene w2).
  { intros w2. unfold bind, PyNode, ret. now destruct (scene w2 !! e0). }
  rewrite Hsc. split.
  - intros p c Hadj.
    rewrite reparent_lookup.
    + cbn [scene emit]. now apply link_chain_parents.
    + intros ->. apply Hmodel. destruct Hadj as [l1 [l2 ->]].
      apply list_elem_of_In, in_or_app. right. right. now left.
  - apply reparent_child.
Qed.

Lemma split_first first tail :
  ~ occurs "|" first ->
  PyStr.split (first +:+ "|" +:+ tail) "|" = first :: PyStr.split tail "|".
Proof.
  induction first as [| c first IH]; intros Hfree.
  - reflexivity.
  - rewrite append_cons. cbn [PyStr.split].
    destruct (Ascii.eqb_spec c "|") as [-> | Hc].
    + exfalso. apply Hfree. exists "", first. reflexivity.
    + rewrite IH; [reflexivity |].
      intros [a [b ->]]. apply Hfree. exists (String c a), b. reflexivity.
Qed.

(** X6: what stands before the first pipe of a path is dropped unread:
    a turn on [first|tail], where [first] has no pipe, does what the turn
    on [|tail] does.  A path that does not start with a pipe so loses its
    first name. *)
Theorem rebuild_entry_ignores_first model first tail loc w :
  ~ occurs "|" first ->
  rebuild_entry (model, JString (first +:+ "|" +:+ tail)) loc w
  = rebuild_entry (model, JString ("|" +:+ tail)) loc w.
Proof.
  intros Hfree. unfold rebuild_entry, str_split.
  unfold bind at 1 3, ret at 1 3.
  rewrite (split_first first tail Hfree).
  change ("|" +:+ tail) with ("" +:+ "|" +:+ tail).
  rewrite (split_first "" tail).
  - reflexivity.
  - intros [a [b H]]. destruct a; discriminate.
Qed.

End Built.

(** ** More on [str.replace], [str.split] and [str.join] *)
Section Strings.

Lemma occursb_occurs old : forall s, occursb old s = true -> occurs old s.
Proof.
  induction s as [| c s IH]; cbn [occursb]; intros H.
  - destruct old; [| discriminate]. now exists "", "".
  - apply orb_true_iff in H as [H | H].
    + apply prefix_inv in H as [t Ht]. now exists "", t.
    + destruct (IH H) as [a [b ->]]. now exists (String c a), b.
Qed.

(** An occurrence has a first one. *)
Lemma first_occurrence old s :
  old <> "" -> occurs old s ->
  exists a b, s = a +:+ old +:+ b /\ ~ occurs old a.
Proof.
  intros Hold [a [b Hs]].
  remember (String.length a) as n eqn:Hn.
  revert a b Hs Hn. induction n as [n IH] using lt_wf_ind. intros a b Hs Hn.
  destruct (occursb old a) eqn:Ha.
  - apply occursb_occurs in Ha as [a1 [b1 Ha]].
    apply (IH (String.length a1)) with (a := a1) (b := b1 +:+ old +:+ b).
    + subst n a. rewrite !length_append.
      destruct old as [| x old]; [congruence |]. cbn [String.length]. lia.
    + rewrite Hs, Ha, !append_assoc. reflexivity.
    + reflexivity.
  - exists a, b. split; [exact Hs |].
    intros Hocc. apply occurs_occursb in Hocc. congruence.
Qed.

Lemma append_inj_l (a x y : string) : a +:+ x = a +:+ y -> x = y.
Proof.
  induction a as [| c a IH]; intros H; [exact H |].
  rewrite !append_cons in H. injection H as H. auto.
Qed.

(** Where [old] occurs and [new] starts differently, the replacement
    changes the string. *)
Lemma replace_changes old new s :
  old <> "" -> border_free old ->
  (forall t t', new +:+ t <> old +:+ t') ->
  occurs old s -> PyStr.replace s old new <> s.
Proof.
  intros Hold Hfree Hdiff Hocc.
  destruct (first_occurrence old s Hold Hocc) as [a [b [-> Ha]]].
  rewrite replace_occurrence by assumption.
  rewrite (replace_absent old new a Hold Ha).
  intros H. apply append_inj_l in H. now apply Hdiff in H.
Qed.

Lemma concat_cons sep x y l :
  String.concat sep (x :: y :: l) = x +:+ sep +:+ String.concat sep (y :: l).
Proof. reflexivity. Qed.

(** X12: splitting a path at a separator and joining the pieces with
    that separator gives the path back: [sep.join(s.split(sep))] is [s],
    so the pieces the loop walks hold all of the path and nothing
    else. *)
Theorem join_split_char s sep :
  PyStr.join (String sep "") (PyStr.split s sep) = s.
Proof.
  unfold PyStr.join. induction s as [| c s IH]; [reflexivity |].
  cbn [PyStr.split]. destruct (split_cons s sep) as [h [t Hs]].
  rewrite Hs in IH |- *. destruct (Ascii.eqb_spec c sep) as [-> | Hc].
  - rewrite concat_cons, IH. reflexivity.
  - destruct t as [| t1 t].
    + cbn [String.concat] in IH |- *. now rewrite IH.
    + rewrite concat_cons in IH |- *. now rewrite append_cons, IH.
Qed.

End Strings.

(** ** Paths the script derives *)
Section Paths.
Variable E : env.

Lemma mentions_append c (a b : string) :
  mentions c (a +:+ b) = mentions c a || mentions c b.
Proof.
  induction a as [| x a IH]; [reflexivity |].
  rewrite append_cons. cbn [mentions]. now rewrite IH, orb_assoc.
Qed.

Lemma cut_last_slash_tail p : forall h t,
  PyStr.cut_last_slash p = (h, t) ->
  mentions "/" t = false /\ (h = "" -> t = p).
Proof.
  induction p as [| c p IH]; intros h t H; cbn [PyStr.cut_last_slash] in H.
  - injection H as <- <-. auto.
  - destruct (PyStr.cut_last_slash p) as [h' t'].
    destruct (IH h' t' eq_refl) as [Hfree Hall].
    destruct h' as [| x h'].
    + specialize (Hall eq_refl). subst t'.
      destruct (Ascii.eqb c "/") eqn:Hc; injection H as <- <-.
      * split; [exact Hfree | discriminate].
      * split; [| reflexivity]. cbn [mentions]. now rewrite Hc.
    + injection H as <- <-. split; [exact Hfree | discriminate].
Qed.

Lemma basename_no_slash p : mentions "/" (PyStr.basename p) = false.
Proof.
  unfold PyStr.basename.
  destruct (PyStr.cut_last_slash p) as [h t] eqn:H.
  now destruct (cut_last_slash_tail p h t H).
Qed.

Lemma cut_last_slash_free n :
  mentions "/" n = false -> PyStr.cut_last_slash n = ("", n).
Proof.
  induction n as [| c n IH]; intros H; [reflexivity |].
  cbn [mentions] in H. apply orb_false_iff in H as [Hc Hn].
  cbn [PyStr.cut_last_slash]. rewrite (IH Hn), Hc. reflexivity.
Qed.

Lemma cut_last_slash_dir d n :
  mentions "/" n = false ->
  PyStr.cut_last_slash (d +:+ "/" +:+ n) = (d +:+ "/", n).
Proof.
  intros Hn. induction d as [| c d IH].
  - rewrite !append_nil_l, append_cons, append_nil_l.
    cbn [PyStr.cut_last_slash]. now rewrite (cut_last_slash_free n Hn).
  - change (String c d +:+ "/" +:+ n) with (String c (d +:+ "/" +:+ n)).
    change (String c d +:+ "/") with (String c (d +:+ "/")).
    cbn [PyStr.cut_last_slash]. rewrite IH.
    destruct d; reflexivity.
Qed.

Lemma endswith_char_inv d c :
  PyStr.endswith_char d c = true -> exists d', d = d' +:+ String c "".
Proof.
  induction d as [| a d IH]; intros H; [discriminate |].
  destruct d as [| b d].
  - cbn in H. apply Ascii.eqb_eq in H as ->. now exists "".
  - destruct (IH H) as [d' Hd]. exists (String a d'). now rewrite append_cons, <- Hd.
Qed.

Lemma basename_path_join d n :
  mentions "/" n = false -> PyStr.basename (PyStr.path_join d n) = n.
Proof.
  intros Hn. unfold PyStr.path_join, PyStr.startswith, PyStr.basename.
  assert (Hstart : String.prefix "/" n = false).
  { destruct n as [| c n]; [reflexivity |].
    cbn [mentions] in Hn. apply orb_false_iff in Hn as [Hc _].
    cbn [String.prefix]. destruct (ascii_dec "/" c) as [<- | _]; [| reflexivity].
    discriminate. }
  rewrite Hstart. destruct (String.eqb_spec d "") as [-> | Hd].
  - cbn [orb]. rewrite append_nil_l. now rewrite (cut_last_slash_free n Hn).
  - cbn [orb]. destruct (PyStr.endswith_char d "/") eqn:Hend.
    + apply endswith_char_inv in Hend as [d' ->].
      rewrite append_assoc. now rewrite (cut_last_slash_dir d' n Hn).
    + now rewrite (cut_last_slash_dir d n Hn).
Qed.

Lemma replace_scan_no_char c old new : forall s k,
  mentions c new = false -> mentions c s = false ->
  mentions c (PyStr.replace_scan old new k s) = false.
Proof.
  induction s as [| x s IH]; intros k Hnew Hs; [reflexivity |].
  cbn [mentions] in Hs. apply orb_false_iff in Hs as [Hx Hs].
  cbn [PyStr.replace_scan]. destruct k as [| k].
  - destruct (String.prefix old (String x s)).
    + rewrite mentions_append, Hnew. now apply IH.
    + cbn [mentions]. rewrite Hx. now apply IH.
  - now apply IH.
Qed.

(** X11: the cache never takes the place of the OBJ file it is made
    from: for an OBJ path whose file name holds [.obj], as every path
    that matches [*.obj] does, the path of the cache is another path
    than the OBJ path; [export_asset_abc] returns no other path than
    that of the cache, and it does return it when the OBJ path has a
    directory part. *)
Theorem export_spares_obj_file obj_file root_node w :
  occurs ".obj" (PyStr.basename obj_file) ->
  abc_file_of obj_file <> obj_file
  /\ (forall p, fst (export_asset_abc obj_file root_node w) = inr p ->
                p = abc_file_of obj_file /\ p <> obj_file)
  /\ (PyStr.dirname obj_file <> "" ->
      fst (export_asset_abc obj_file root_node w) = inr (abc_file_of obj_file)).
Proof.
  intros Hocc.
  assert (Hne : abc_file_of obj_file <> obj_file).
  { intros Hsame. apply (f_equal PyStr.basename) in Hsame.
    unfold abc_file_of in Hsame. rewrite basename_path_join in Hsame.
    - revert Hsame. apply replace_changes; try assumption.
      + discriminate.
      + apply border_free_dot_obj.
      + intros t t' H. rewrite !append_cons in H. discriminate.
    - unfold PyStr.replace. apply replace_scan_no_char; [reflexivity |].
      apply basename_no_slash. }
  split; [exact Hne |]. split.
  - intros p Hp.
    destruct (String.eqb_spec (abc_dir_of obj_file) "") as [Hd | Hd].
    + rewrite (export_asset_abc_stuck _ _ _ Hd) in Hp. discriminate.
    + rewrite (export_asset_abc_made _ _ _ Hd) in Hp. cbn [fst] in Hp.
      injection Hp as <-. now split.
  - intros Hdir. rewrite export_asset_abc_made; [reflexivity |].
    intros Hd. now apply abc_dir_of_empty in Hd.
Qed.

(** X8: when the OBJ path has a directory part and that part holds no
    [obj], the cache goes to the directory of the OBJ file itself; no
    directory is made when that one exists. *)
Theorem export_beside_obj_file obj_file root_node w :
  PyStr.dirname obj_file <> "" ->
  ~ occurs "obj" (PyStr.dirname obj_file) ->
  let r := export_asset_abc obj_file root_node w in
  fst r = inr (PyStr.path_join (PyStr.dirname obj_file)
                 (PyStr.replace (PyStr.basename obj_file) ".obj" ".abc"))
  /\ (PyStr.dirname obj_file ∈ dirs w ->
      makedirs_calls (log (snd r)) = makedirs_calls (log w)
      /\ dirs (snd r) = dirs w).
Proof.
  intros Hdir Hno r. subst r.
  assert (Hsame : abc_dir_of obj_file = PyStr.dirname obj_file).
  { unfold abc_dir_of. apply replace_absent; [discriminate | exact Hno]. }
  rewrite export_asset_abc_made by now rewrite Hsame.
  cbn [fst snd]. split.
  - unfold abc_file_of. now rewrite Hsame.
  - intros Hthere. rewrite Hsame. unfold dir_made.
    rewrite bool_decide_eq_true_2 by exact Hthere.
    cbn [log dirs emit]. rewrite !makedirs_calls_app. cbn.
    now rewrite !app_nil_r.
Qed.

(** X9: the sidecar path is the OBJ path itself exactly when the OBJ
    path holds no [.obj]; [rebuild_asset_hierarchy] then opens the OBJ
    file and parses it as JSON. *)
Theorem sidecar_is_obj_file obj_file w :
  (PyStr.replace obj_file ".obj" ".hier" = obj_file <-> ~ occurs ".obj" obj_file)
  /\ (~ occurs ".obj" obj_file ->
      (exists tr, log (snd (rebuild_asset_hierarchy E obj_file w))
                  = log w ++ EvOpen obj_file :: tr)
      /\ forall e, load_json E obj_file = inl e ->
                   fst (rebuild_asset_hierarchy E obj_file w) = inl e).
Proof.
  assert (Hsame : ~ occurs ".obj" obj_file ->
                  PyStr.replace obj_file ".obj" ".hier" = obj_file).
  { intros Hno. apply replace_absent; [discriminate | exact Hno]. }
  split; [split |].
  - intros Heq Hocc. revert Heq. apply replace_changes; try assumption.
    + discriminate.
    + apply border_free_dot_obj.
    + intros t t' H. rewrite !append_cons in H. discriminate.
  - exact Hsame.
  - intros Hno. specialize (Hsame Hno). split.
    + destruct (rebuild_log E obj_file w) as [tr [Hlog [mid [-> _]]]].
      exists mid. rewrite Hlog. unfold hier_path. now rewrite Hsame.
    + intros e He. unfold rebuild_asset_hierarchy, bind, json_load.
      now rewrite Hsame, He.
Qed.

End Paths.

(** ** Where the cache goes *)
Section Destination.

Lemma no_occurrence_empty old : old <> "" -> ~ occurs old "".
Proof.
  intros Hold [a [b H]]. apply (f_equal String.length) in H.
  rewrite !length_append in H. destruct old; [congruence |].
  cbn [String.length] in H. lia.
Qed.

Lemma occurs_cons old c s :
  occurs old (String c s) ->
  String.prefix old (String c s) = true \/ occurs old s.
Proof.
  intros [a [b H]]. destruct a as [| x a].
  - left. rewrite append_nil_l in H. rewrite H. apply prefix_append.
  - right. rewrite append_cons in H. injection H as _ ->. now exists a, b.
Qed.

(** A character that starts no occurrence is kept, and what stands
    behind it is rewritten. *)
Lemma rewritten_cons old new c s r :
  String.prefix old (String c s) = false ->
  rewritten old new s r -> rewritten old new (String c s) (String c r).
Proof.
  intros Hp Hr. destruct Hr as [s Hno | a b r Hleft Hr].
  - apply rewritten_none. intros Hocc.
    apply occurs_cons in Hocc as [Hq | Hocc]; [congruence | contradiction].
  - rewrite <- !append_cons. apply rewritten_first; [| exact Hr].
    intros a' b' H. destruct a' as [| x a'].
    + exfalso. rewrite append_nil_l in H. rewrite <- append_cons in Hp.
      rewrite H, prefix_append in Hp. discriminate.
    + rewrite !append_cons in H. injection H as _ H.
      cbn [String.length]. specialize (Hleft a' b' H). lia.
Qed.

Lemma replace_scan_rewritten old new :
  old <> "" ->
  forall n s, String.length s <= n ->
    rewritten old new s (PyStr.replace_scan old new 0 s).
Proof.
  intros Hold. induction n as [| n IH]; intros s Hlen.
  - destruct s; [| cbn [String.length] in Hlen; lia].
    apply rewritten_none. now apply no_occurrence_empty.
  - destruct s as [| c s].
    + apply rewritten_none. now apply no_occurrence_empty.
    + destruct (String.prefix old (String c s)) eqn:Hp.
      * apply prefix_inv in Hp as [t Ht]. rewrite Ht.
        rewrite replace_scan_hit by exact Hold.
        apply (rewritten_first old new "" t).
        -- intros a' b' _. cbn [String.length]. lia.
        -- apply IH. apply (f_equal String.length) in Ht.
           rewrite length_append in Ht. cbn [String.length] in Ht, Hlen.
           destruct old; [congruence | cbn [String.length] in Ht; lia].
      * rewrite replace_scan_miss by exact Hp.
        apply rewritten_cons; [exact Hp |].
        apply IH. cbn [String.length] in Hlen. lia.
Qed.

(** [str.replace] rewrites, from the left and without overlap ... *)
Lemma replace_rewritten old new s :
  old <> "" -> rewritten old new s (PyStr.replace s old new).
Proof.
  intros Hold. unfold PyStr.replace. destruct old as [| c o]; [congruence |].
  now apply (replace_scan_rewritten _ _ Hold (String.length s)).
Qed.

Lemma replace_scan_leftmost old new b :
  old <> "" ->
  forall a, leftmost old a b ->
    PyStr.replace_scan old new 0 (a +:+ old +:+ b)
    = a +:+ new +:+ PyStr.replace_scan old new 0 b.
Proof.
  intros Hold. induction a as [| c a IH]; intros Hleft.
  - rewrite !append_nil_l. now apply replace_scan_hit.
  - rewrite !append_cons. rewrite replace_scan_miss.
    + rewrite IH; [reflexivity |].
      intros a' b' H. specialize (Hleft (String c a') b').
      rewrite !append_cons, H in Hleft. specialize (Hleft eq_refl).
      cbn [String.length] in Hleft. lia.
    + destruct (String.prefix old (String c (a +:+ old +:+ b))) eqn:Hp;
        [| reflexivity].
      apply prefix_inv in Hp as [t Ht].
      specialize (Hleft "" t). rewrite append_cons, append_nil_l in Hleft.
      specialize (Hleft Ht). cbn [String.length] in Hleft. lia.
Qed.

(** ... and that is all it does. *)
Lemma rewritten_replace old new s r :
  old <> "" -> rewritten old new s r -> r = PyStr.replace s old new.
Proof.
  intros Hold Hr. induction Hr as [s Hno | a b r Hleft Hr IH].
  - symmetry. now apply replace_absent.
  - rewrite IH. unfold PyStr.replace. destruct old as [| c o]; [congruence |].
    symmetry. now apply replace_scan_leftmost.
Qed.

Lemma rstrip_last d c :
  d <> "" -> PyStr.endswith_char d c = false ->
  PyStr.rstrip (d +:+ String c "") c = d.
Proof.
  induction d as [| a d IH]; intros Hd Hend; [congruence |].
  destruct d as [| b d].
  - cbn in Hend. rewrite append_cons, append_nil_l.
    cbn [PyStr.rstrip]. now rewrite Ascii.eqb_refl, Hend.
  - rewrite append_cons. cbn [PyStr.rstrip]. fold PyStr.rstrip.
    rewrite IH; [reflexivity | discriminate | exact Hend].
Qed.

Lemma not_times d c :
  d <> "" -> PyStr.endswith_char d c = false ->
  forall n, d +:+ String c "" <> PyStr.times c n.
Proof.
  induction d as [| a d IH]; intros Hd Hend n H; [congruence |].
  destruct n as [| n]; [rewrite append_cons in H; discriminate |].
  rewrite append_cons in H. cbn [PyStr.times] in H. injection H as -> H.
  destruct d as [| b d].
  - cbn in Hend. now rewrite Ascii.eqb_refl in Hend.
  - apply (IH ltac:(discriminate) Hend n H).
Qed.

(** The two parts of a path [dir/name]. *)
Lemma dirname_basename dir name :
  dir <> "" -> PyStr.endswith_char dir "/" = false ->
  mentions "/" name = false ->
  PyStr.dirname (dir +:+ "/" +:+ name) = dir
  /\ PyStr.basename (dir +:+ "/" +:+ name) = name.
Proof.
  intros Hdir Hend Hname.
  unfold PyStr.dirname, PyStr.basename, PyStr.path_split.
  rewrite (cut_last_slash_dir dir name Hname). cbn [fst snd].
  split; [| reflexivity].
  destruct (String.eqb_spec (dir +:+ "/") "") as [He | _].
  { destruct dir; [congruence | rewrite append_cons in He; discriminate]. }
  destruct (String.eqb_spec (dir +:+ "/")
              (PyStr.times "/" (String.length (dir +:+ "/")))) as [He | _].
  { exfalso. exact (not_times dir "/" Hdir Hend _ He). }
  cbn [negb andb fst]. now apply rstrip_last.
Qed.

Lemma endswith_char_append (x y : string) c :
  PyStr.endswith_char (x +:+ y) c
  = match y with
    | EmptyString => PyStr.endswith_char x c
    | _ => PyStr.endswith_char y c
    end.
Proof.
  induction x as [| a x IH].
  - rewrite append_nil_l. now destruct y.
  - rewrite append_cons. destruct y as [| b y].
    + now rewrite append_nil_r.
    + cbn [PyStr.endswith_char]. rewrite IH.
      destruct x; reflexivity.
Qed.

Lemma rewritten_empty old new r :
  old <> "" -> rewritten old new "" r -> r = "".
Proof.
  intros Hold Hr. apply (rewritten_replace _ _ _ _ Hold) in Hr. subst r.
  unfold PyStr.replace. now destruct old.
Qed.

(** Rewriting does not put the character [c] at the end when neither
    pattern ends in it. *)
Lemma rewritten_endswith old new c s r :
  old <> "" -> new <> "" ->
  PyStr.endswith_char new c = false ->
  rewritten old new s r ->
  PyStr.endswith_char s c = false -> PyStr.endswith_char r c = false.
Proof.
  intros Hold Hnew Hc Hr. induction Hr as [s Hno | a b r Hleft Hr IH]; [auto |].
  intros Hs. rewrite endswith_char_append in Hs |- *.
  assert (Hob : old +:+ b <> "").
  { destruct old; [congruence | rewrite append_cons; discriminate]. }
  assert (Hnr : new +:+ r <> "").
  { destruct new; [congruence | rewrite append_cons; discriminate]. }
  destruct (old +:+ b) as [| x ob] eqn:Eob; [congruence |].
  destruct (new +:+ r) as [| y nr] eqn:Enr; [congruence |].
  rewrite <- Eob in Hs. rewrite <- Enr.
  rewrite endswith_char_append in Hs |- *.
  destruct b as [| z b].
  - apply (rewritten_empty _ _ _ Hold) in Hr. subst r. exact Hc.
  - specialize (IH Hs). destruct r; [exact Hc | exact IH].
Qed.

Lemma path_join_plain d n :
  d <> "" -> PyStr.endswith_char d "/" = false -> mentions "/" n = false ->
  PyStr.path_join d n = d +:+ "/" +:+ n.
Proof.
  intros Hd Hend Hn. unfold PyStr.path_join, PyStr.startswith.
  assert (Hstart : String.prefix "/" n = false).
  { destruct n as [| c n]; [reflexivity |].
    cbn [mentions] in Hn. apply orb_false_iff in Hn as [Hc _].
    cbn [String.prefix]. destruct (ascii_dec "/" c) as [<- | _]; [| reflexivity].
    discriminate. }
  rewrite Hstart, Hend.
  now destruct (String.eqb_spec d "").
Qed.

(** C6, as the code has it: for an OBJ path with a directory part,
    [export_asset_abc] returns the path made of the directory part with
    [obj] rewritten to [abc] and of the file name with [.obj] rewritten
    to [.abc]; that directory exists afterwards, [os.makedirs] being
    called on it exactly when it did not exist before, and the one job
    given to the exporter names the returned file.  For a path
    [dir/name] the directory part is [dir], the file name is [name], and
    the returned path is the rewritten [dir], a slash and the rewritten
    [name]. *)
Theorem export_asset_abc_path obj_file root_node w :
  PyStr.dirname obj_file <> "" ->
  exists d n,
    rewritten "obj" "abc" (PyStr.dirname obj_file) d
    /\ rewritten ".obj" ".abc" (PyStr.basename obj_file) n
    /\ (let r := export_asset_abc obj_file root_node w in
        fst r = inr (PyStr.path_join d n)
        /\ d ∈ dirs (snd r)
        /\ dirs w ⊆ dirs (snd r)
        /\ makedirs_calls (log (snd r))
           = makedirs_calls (log w)
             ++ (if bool_decide (d ∈ dirs w) then [] else [d])
        /\ abc_jobs (log (snd r))
           = abc_jobs (log w)
             ++ [exporter_flags +:+ " -root " +:+ full_path_in w root_node
                 +:+ " -file " +:+ PyStr.path_join d n])
    /\ (forall dir name,
          obj_file = dir +:+ "/" +:+ name ->
          dir <> "" -> PyStr.endswith_char dir "/" = false ->
          mentions "/" name = false ->
          PyStr.dirname obj_file = dir /\ PyStr.basename obj_file = name
          /\ PyStr.path_join d n = d +:+ "/" +:+ n).
Proof.
  intros Hdir.
  exists (PyStr.replace (PyStr.dirname obj_file) "obj" "abc"),
         (PyStr.replace (PyStr.basename obj_file) ".obj" ".abc").
  split; [apply replace_rewritten; discriminate |].
  split; [apply replace_rewritten; discriminate |].
  split.
  - fold (abc_dir_of obj_file). fold (abc_file_of obj_file).
    rewrite export_asset_abc_made
      by (intros Hd; now apply abc_dir_of_empty in Hd).
    cbn [fst snd log dirs emit].
    split; [reflexivity |]. split; [apply dir_made_there |].
    unfold dir_made. destruct (bool_decide (abc_dir_of obj_file ∈ dirs w)).
    + split; [reflexivity |]. rewrite <- !app_assoc. split.
      * rewrite makedirs_calls_app. reflexivity.
      * rewrite abc_jobs_app. reflexivity.
    + cbn [log dirs emit with_dirs].
      split; [apply union_subseteq_r |]. rewrite <- !app_assoc. split.
      * rewrite makedirs_calls_app. reflexivity.
      * rewrite abc_jobs_app. reflexivity.
  - intros dir name -> Hne Hend Hname.
    destruct (dirname_basename dir name Hne Hend Hname) as [-> ->].
    split; [reflexivity |]. split; [reflexivity |].
    apply path_join_plain.
    + apply replace_nonempty; [discriminate | exact Hne].
    + apply (rewritten_endswith "obj" "abc" "/" dir);
        [discriminate | discriminate | reflexivity | | exact Hend].
      apply replace_rewritten. discriminate.
    + unfold PyStr.replace. now apply replace_scan_no_char.
Qed.

End Destination.

(** ** Directories and jobs over a whole run *)
Section WholeRun.
Variable E : env.

Lemma node_events_quiet mid :
  Forall node_event mid -> makedirs_calls mid = [] /\ abc_jobs mid = [].
Proof.
  induction 1 as [| x mid Hx _ [IH1 IH2]]; [auto |].
  unfold makedirs_calls, abc_jobs in *. cbn [flat_map].
  destruct x; cbn in Hx; try contradiction; cbn [app]; auto.
Qed.

Lemma makedirs_calls_cons e l :
  makedirs_calls (e :: l)
  = match e with EvMakeDirs d => [d] | _ => [] end ++ makedirs_calls l.
Proof. reflexivity. Qed.

Lemma abc_jobs_cons e l :
  abc_jobs (e :: l)
  = match e with EvAbcExport j => [j] | _ => [] end ++ abc_jobs l.
Proof. reflexivity. Qed.

(** One turn of the top-level loop: at most one directory made, new and
    there afterwards; one job when the turn ends normally, none
    otherwise. *)
Lemma ingest_summary obj_file w :
  let r := ingest E obj_file tt w in
  exists tr,
    log (snd r) = log w ++ tr
    /\ dirs w ⊆ dirs (snd r)
    /\ (makedirs_calls tr = []
        \/ exists d, makedirs_calls tr = [d]
                     /\ (d ∉ dirs w) /\ (d ∈ dirs (snd r)))
    /\ ((fst r = inr tt /\ exists job, abc_jobs tr = [job] /\ job_for obj_file job)
        \/ (exists e, fst r = inl e /\ abc_jobs tr = [])).
Proof.
  intros r. subst r. rewrite ingest_eq.
  destruct (import_asset_obj_log E obj_file w) as [_ Hi_log].
  assert (Hi_dirs : dirs (snd (import_asset_obj E obj_file w)) = dirs w)
    by reflexivity.
  set (wi := snd (import_asset_obj E obj_file w)) in *.
  destruct (rebuild_log E obj_file wi) as [t2 [Hr_log [mid [-> Hmid]]]].
  destruct (keeps_rebuild E obj_file wi) as [Hr_dirs _].
  destruct (node_events_quiet mid Hmid) as [Hq1 Hq2].
  destruct (rebuild_asset_hierarchy E obj_file wi) as [[e | root_node] wr];
    cbn [fst snd] in *.
  - exists (import_events obj_file ++ (EvOpen (hier_path obj_file) :: mid)).
    split; [now rewrite Hr_log, Hi_log, <- app_assoc |].
    split; [now rewrite Hr_dirs, Hi_dirs |].
    split; [left | right; exists e; (split; [reflexivity |])].
    + rewrite makedirs_calls_app, makedirs_calls_cons, Hq1. reflexivity.
    + rewrite abc_jobs_app, abc_jobs_cons, Hq2. reflexivity.
  - destruct (String.eqb_spec (abc_dir_of obj_file) "") as [Hd | Hd].
    { rewrite (export_asset_abc_stuck _ _ _ Hd). cbn [fst snd log dirs emit].
      exists (import_events obj_file ++ (EvOpen (hier_path obj_file) :: mid)
              ++ [EvMakeDirsError ""]).
      split; [rewrite Hr_log, Hi_log, <- !app_assoc; reflexivity |].
      split; [now rewrite Hr_dirs, Hi_dirs |].
      split; [left | right; exists OSError; (split; [reflexivity |])].
      - rewrite !makedirs_calls_app, makedirs_calls_cons, Hq1. reflexivity.
      - rewrite !abc_jobs_app, abc_jobs_cons, Hq2. reflexivity. }
    rewrite (export_asset_abc_made _ _ _ Hd). cbn [fst snd log dirs emit].
    set (job := export_job (full_path_in wr root_node) (abc_file_of obj_file)).
    set (msg := EvPrint ("Rebuilt and exported abc file to "
                         +:+ abc_file_of obj_file)).
    unfold dir_made.
    destruct (bool_decide (abc_dir_of obj_file ∈ dirs wr)) eqn:Hthere.
    + exists (import_events obj_file ++ (EvOpen (hier_path obj_file) :: mid)
              ++ [EvSelect root_node; EvAbcExport job; msg]).
      split; [rewrite Hr_log, Hi_log, <- !app_assoc; reflexivity |].
      split; [now rewrite Hr_dirs, Hi_dirs |].
      split; [left | left; (split; [reflexivity | exists job; split])].
      * rewrite !makedirs_calls_app, makedirs_calls_cons, Hq1. reflexivity.
      * rewrite !abc_jobs_app, abc_jobs_cons, Hq2. reflexivity.
      * now exists (full_path_in wr root_node).
    + apply bool_decide_eq_false in Hthere.
      exists (import_events obj_file ++ (EvOpen (hier_path obj_file) :: mid)
              ++ [EvMakeDirs (abc_dir_of obj_file); EvSelect root_node;
                  EvAbcExport job; msg]).
      cbn [log dirs emit with_dirs].
      split; [rewrite Hr_log, Hi_log, <- !app_assoc; reflexivity |].
      split; [rewrite Hr_dirs, Hi_dirs; apply union_subseteq_r |].
      split; [right; exists (abc_dir_of obj_file); (split; [| split])
             | left; (split; [reflexivity | exists job; split])].
      * rewrite !makedirs_calls_app, makedirs_calls_cons, Hq1. reflexivity.
      * now rewrite <- Hi_dirs, <- Hr_dirs.
      * destruct (up_dirs_head (String.length (abc_dir_of obj_file))
                    (abc_dir_of obj_file)) as [l ->].
        apply elem_of_union_l, elem_of_list_to_set. now left.
      * rewrite !abc_jobs_app, abc_jobs_cons, Hq2. reflexivity.
      * now exists (full_path_in wr root_node).
Qed.

(** The loop over a list of OBJ files: directories are made once, and
    the jobs are those of the files handled, in their order. *)
Lemma loop_summary obj_files : forall w,
  let r := for_each obj_files (ingest E) tt w in
  exists tr handled rest,
    log (snd r) = log w ++ tr
    /\ dirs w ⊆ dirs (snd r)
    /\ NoDup (makedirs_calls tr)
    /\ (forall d, d ∈ makedirs_calls tr -> (d ∉ dirs w) /\ (d ∈ dirs (snd r)))
    /\ obj_files = handled ++ rest
    /\ Forall2 job_for handled (abc_jobs tr)
    /\ (fst r = inr tt -> rest = []).
Proof.
  assert (Hone : forall (t1 : list event) (w w1 : world),
            (makedirs_calls t1 = []
             \/ exists d, makedirs_calls t1 = [d]
                          /\ (d ∉ dirs w) /\ (d ∈ dirs w1)) ->
            NoDup (makedirs_calls t1)
            /\ forall d, d ∈ makedirs_calls t1 -> (d ∉ dirs w) /\ (d ∈ dirs w1)).
  { intros t1 w w1 [-> | [d [-> [Hnew Hthere]]]].
    - split; [constructor |]. intros d Hd. inversion Hd.
    - split; [apply NoDup_singleton |].
      intros d' Hd. apply list_elem_of_singleton in Hd as ->. auto. }
  induction obj_files as [| o objs IH]; intros w r; subst r.
  - exists [], [], []. cbn [for_each ret fst snd].
    rewrite app_nil_r.
    split; [reflexivity |]. split; [reflexivity |].
    split; [constructor |]. split; [intros d Hd; inversion Hd |].
    split; [reflexivity |]. split; [constructor | reflexivity].
  - simpl for_each. unfold bind.
    destruct (ingest_summary o w) as [t1 [L1 [D1 [M1 J1]]]].
    destruct (ingest E o tt w) as [[e | []] w1]; cbn [fst snd] in *.
    + destruct J1 as [[Hok _] | [e' [_ J1]]]; [discriminate |].
      destruct (Hone t1 w w1 M1) as [N1 M1'].
      exists t1, [], (o :: objs). rewrite J1.
      split; [exact L1 |]. split; [exact D1 |].
      split; [exact N1 |]. split; [exact M1' |].
      split; [reflexivity |]. split; [constructor | discriminate].
    + destruct J1 as [[_ [job [J1 Hjob]]] | [e' [He _]]]; [| discriminate].
      destruct (Hone t1 w w1 M1) as [N1 M1'].
      destruct (IH w1)
        as [t2 [handled [rest [L2 [D2 [N2 [M2 [Hsplit [HF Hend]]]]]]]]].
      exists (t1 ++ t2), (o :: handled), rest.
      rewrite makedirs_calls_app, abc_jobs_app, J1.
      split; [now rewrite L2, L1, app_assoc |].
      split; [etransitivity; eassumption |].
      split; [| split; [| split; [| split]]].
      * apply NoDup_app. split; [exact N1 |]. split; [| exact N2].
        intros d Hd Hd2. destruct (M2 d Hd2) as [Hnot _].
        apply Hnot. now destruct (M1' d Hd).
      * intros d Hd. apply elem_of_app in Hd as [Hd | Hd].
        -- destruct (M1' d Hd) as [Hnew Hthere]. split; [exact Hnew |].
           apply D2, Hthere.
        -- destruct (M2 d Hd) as [Hnew Hthere]. split; [| exact Hthere].
           intros Hin. apply Hnew, D1, Hin.
      * now rewrite Hsplit.
      * constructor; assumption.
      * exact Hend.
Qed.

(** X7: over a whole run of the script, whether it ends normally or
    raises, [os.makedirs] is never called twice on the same directory and
    never on a directory that existed when the script started; every
    directory it is called on exists at the end. *)
Theorem main_makedirs_once w :
  exists tr,
    log (snd (main E w)) = log w ++ tr
    /\ makedirs_once tr
    /\ forall d, d ∈ makedirs_calls tr ->
                 (d ∉ dirs w) /\ (d ∈ dirs (snd (main E w))).
Proof.
  unfold main, bind. rewrite get_asset_objs_run.
  destruct (listdir E (PyStr.path_join root_dir "obj")) as [e | assets].
  - exists []. cbn [snd]. rewrite app_nil_r.
    split; [reflexivity |]. split; [constructor |].
    intros d Hd. inversion Hd.
  - destruct (loop_summary (discovered E (PyStr.path_join root_dir "obj") assets) w)
      as [tr [handled [rest [L [_ [N [M _]]]]]]].
    exists tr. auto.
Qed.

(** X10: the Alembic exporter gets one job per OBJ file that the script
    handles to the end, in the order of discovery, and each job names the
    cache of its file; when the script ends normally, every discovered
    file has its job. *)
Theorem main_one_job_per_file w assets :
  listdir E (PyStr.path_join root_dir "obj") = inr assets ->
  exists tr handled rest,
    log (snd (main E w)) = log w ++ tr
    /\ discovered E (PyStr.path_join root_dir "obj") assets = handled ++ rest
    /\ Forall2 job_for handled (abc_jobs tr)
    /\ (fst (main E w) = inr tt -> rest = []).
Proof.
  intros Hlist. unfold main, bind. rewrite get_asset_objs_run, Hlist.
  destruct (loop_summary (discovered E (PyStr.path_join root_dir "obj") assets) w)
    as [tr [handled [rest [L [_ [_ [_ [Hsplit [HF Hend]]]]]]]]].
  exists tr, handled, rest. auto.
Qed.

End WholeRun.

(** ** A path that is already built *)
Section Settled.

Lemma ensure_present_scene n w : present n w -> scene (ensure n w) = scene w.
Proof.
  intros [x Hx]. unfold ensure. now rewrite Hx.
Qed.

Lemma reparent_same c p w :
  scene w !! c = Some (Some p) -> scene (reparent c p w) = scene w.
Proof.
  intros H. unfold reparent. cbn [scene emit with_scene]. now apply insert_id.
Qed.

Lemma adjacent_head e0 e rest : adjacent e0 e (e0 :: e :: rest).
Proof. now exists [], rest. Qed.

Lemma adjacent_tail p c e0 rest :
  adjacent p c rest -> adjacent p c (e0 :: rest).
Proof. intros [l1 [l2 ->]]. now exists (e0 :: l1), l2. Qed.

(** On a chain that is in the scene the inner loop changes nothing. *)
Lemma link_chain_settled rest : forall e0 w,
  present e0 w ->
  (forall p c, adjacent p c (e0 :: rest) -> scene w !! c = Some (Some p)) ->
  scene (link_chain e0 rest w) = scene w.
Proof.
  induction rest as [| e rest IH]; intros e0 w He0 Hadj; [reflexivity |].
  cbn [link_chain].
  assert (He : scene w !! e = Some (Some e0)) by apply Hadj, adjacent_head.
  assert (Hin : scene (link_chain e rest w) = scene w).
  { apply IH; [now exists (Some e0) |].
    intros p c Hpc. now apply Hadj, adjacent_tail. }
  assert (H1 : scene (ensure e (link_chain e rest w)) = scene w).
  { rewrite ensure_present_scene; [exact Hin |].
    unfold present. rewrite Hin, He. eauto. }
  assert (H2 : scene (ensure e0 (ensure e (link_chain e rest w))) = scene w).
  { rewrite ensure_present_scene; [exact H1 |].
    unfold present. rewrite H1. exact He0. }
  rewrite reparent_same; [exact H2 |]. now rewrite H2.
Qed.

Lemma last_elem_present rest : forall e0 w,
  present e0 w ->
  (forall p c, adjacent p c (e0 :: rest) -> scene w !! c = Some (Some p)) ->
  present (last_elem e0 rest) w.
Proof.
  induction rest as [| e rest IH]; intros e0 w He0 Hadj; [exact He0 |].
  rewrite last_elem_cons. apply IH.
  - exists (Some e0). apply Hadj, adjacent_head.
  - intros p c Hpc. now apply Hadj, adjacent_tail.
Qed.

(** X13: a turn on a path whose chain is already in the scene, as after
    an earlier item with the same ancestors, leaves the chain as it is:
    it ends normally, returns the first path element, and the only
    change in the scene is that the model gets the last path element as
    parent. *)
Theorem rebuild_entry_on_built_path model s loc w e0 rest :
  tl (PyStr.split s "|") = e0 :: rest ->
  present e0 w ->
  (forall p c, adjacent p c (e0 :: rest) -> scene w !! c = Some (Some p)) ->
  present model w ->
  let r := rebuild_entry (model, JString s) loc w in
  fst r = inr {| model_node := Some (PyNodeObj model); root_par_node := Some e0 |}
  /\ scene (snd r) = <[model := Some (last_elem e0 rest)]> (scene w).
Proof.
  intros Hs He0 Hadj Hmodel r. subst r.
  rewrite (rebuild_entry_eq _ _ _ _ _ _ Hs).
  pose proof (link_chain_settled rest e0 w He0 Hadj) as Hsc.
  pose proof (last_elem_present rest e0 w He0 Hadj) as Hlast.
  unfold attach. rewrite Hsc.
  destruct Hmodel as [pm Hm]. destruct Hlast as [pl Hl]. rewrite Hm, Hl.
  set (w2 := reparent model (last_elem e0 rest)
               (emit (EvPyNode (last_elem e0 rest) true)
                  (emit (EvPyNode model true) (link_chain e0 rest w)))).
  assert (Hw2 : scene w2 = <[model := Some (last_elem e0 rest)]> (scene w)).
  { unfold w2, reparent. cbn [scene emit with_scene]. now rewrite Hsc. }
  assert (He2 : present e0 w2).
  { apply reparent_keeps. unfold present. cbn [scene emit]. now rewrite Hsc. }
  destruct He2 as [pe He2].
  unfold bind, PyNode, ret. rewrite He2. split; [reflexivity | exact Hw2].
Qed.

End Settled.

(** ** From the import to the export *)
Section Carried.
Variable E : env.

Lemma imported_present obj_file w n :
  In n (obj_nodes E obj_file) ->
  present n (snd (import_asset_obj E obj_file w)).
Proof.
  intros Hin. unfold import_asset_obj, bind, newFile, importFile, ret, present.
  cbn [snd scene emit with_scene].
  induction (obj_nodes E obj_file) as [| m l IH]; [contradiction |].
  cbn [foldr]. destruct (decide (m = n)) as [-> | Hne].
  - rewrite lookup_insert_eq. eauto.
  - rewrite lookup_insert_ne by exact Hne. apply IH.
    destruct Hin as [-> | Hin]; [congruence | exact Hin].
Qed.

(** X14: no node of the imported OBJ file gets lost on the way to the
    export: after a turn of the top-level loop, whether it ends normally
    or the rebuilding or the export raises, every node that the OBJ file
    holds is in the scene. *)
Theorem ingest_keeps_imported_nodes obj_file w n :
  In n (obj_nodes E obj_file) ->
  present n (snd (ingest E obj_file tt w)).
Proof.
  intros Hin. rewrite ingest_eq.
  pose proof (imported_present obj_file w n Hin) as Hi.
  destruct (keeps_rebuild E obj_file (snd (import_asset_obj E obj_file w)))
    as [_ Hkeep].
  specialize (Hkeep n Hi).
  destruct (rebuild_asset_hierarchy E obj_file _) as [[e | root_node] wr];
    cbn [snd] in *; [exact Hkeep |].
  destruct (String.eqb_spec (abc_dir_of obj_file) "") as [Hd | Hd].
  - rewrite (export_asset_abc_stuck _ _ _ Hd). exact Hkeep.
  - rewrite (export_asset_abc_made _ _ _ Hd). unfold present in *.
    cbn [snd scene emit].
    now destruct (dir_made_log (abc_dir_of obj_file) wr) as [-> _].
Qed.

End Carried.

(** ** The further properties on the small dataset *)
Section MoreOnTheIsland.

Lemma rebuild_entry_raises_witness :
  fst (rebuild_entry ("trunk", JString ("" +:+ "|" +:+ "root")) unbound
         Demo.with_trunk)
  = inl MayaNodeError.
Proof.
  destruct (rebuild_entry_raises "trunk" unbound Demo.with_trunk) as [_ [_ H]].
  destruct (H "" "root") as [w' [tried [Hrun _]]].
  - reflexivity.
  - reflexivity.
  - intros [x Hx]. vm_compute in Hx. discriminate.
  - now rewrite Hrun.
Defined.

Lemma rebuild_stops_at_first_failure_witness :
  fst (rebuild_asset_hierarchy Demo.half "/d/t.obj" Demo.fresh) = inl IndexError
  /\ map (fun n => scene (snd (rebuild_asset_hierarchy Demo.half "/d/t.obj"
                                 Demo.fresh)) !! n)
       ["grp"; "twig"]
     = [Some (Some "root"); None].
Proof.
  assert (Hrun :
    rebuild_asset_hierarchy Demo.half "/d/t.obj" Demo.fresh
    = (inl IndexError,
       snd (for_each [("trunk", JString "|root|grp")] rebuild_entry unbound
              (emit (EvOpen (hier_path "/d/t.obj")) Demo.fresh)))).
  { apply (rebuild_stops_at_first_failure Demo.half "/d/t.obj" Demo.fresh
             [("trunk", JString "|root|grp")] "crown" (JString "grp")
             [("leaf", JString "|root|twig")]
             {| model_node := Some PyNone; root_par_node := Some "root" |}
             (snd (for_each [("trunk", JString "|root|grp")] rebuild_entry unbound
                     (emit (EvOpen (hier_path "/d/t.obj")) Demo.fresh)))).
    - reflexivity.
    - vm_compute. reflexivity.
    - vm_compute. reflexivity. }
  rewrite Hrun. split; [reflexivity | vm_compute; reflexivity].
Defined.

Lemma rebuild_returns_present_node_witness :
  present "root"
    (snd (rebuild_asset_hierarchy Demo.island (Demo.obj_dir +:+ "/tree/tree.obj")
            Demo.fresh)).
Proof.
  apply (rebuild_returns_present_node Demo.island
           (Demo.obj_dir +:+ "/tree/tree.obj") Demo.fresh "root").
  vm_compute. reflexivity.
Defined.

Lemma rebuild_entry_hierarchy_witness :
  let w' := snd (rebuild_entry ("trunk", JString "|root|grp|sub") unbound
                   Demo.with_trunk) in
  scene w' !! "grp" = Some (Some "root")
  /\ scene w' !! "sub" = Some (Some "grp")
  /\ scene w' !! "trunk" = Some (Some "sub").
Proof.
  assert (Hs : tl (PyStr.split "|root|grp|sub" "|") = "root" :: ["grp"; "sub"])
    by reflexivity.
  assert (Hnd : NoDup ("root" :: ["grp"; "sub"])).
  { apply (bool_decide_unpack _). vm_compute. exact I. }
  assert (Hm : "trunk" ∉ "root" :: ["grp"; "sub"]).
  { apply (bool_decide_unpack _). vm_compute. exact I. }
  assert (Hp : present "trunk" Demo.with_trunk)
    by (exists None; vm_compute; reflexivity).
  assert (Hr : ["grp"; "sub"] <> [] \/ present "root" Demo.with_trunk)
    by (left; discriminate).
  destruct (rebuild_entry_hierarchy "trunk" "|root|grp|sub" unbound
              Demo.with_trunk "root" ["grp"; "sub"] Hs Hnd Hm Hp Hr)
    as [Hchain Hmodel].
  intros w'. subst w'. split; [| split].
  - apply Hchain. now exists [], ["sub"].
  - apply Hchain. now exists ["root"], [].
  - exact Hmodel.
Defined.

Lemma rebuild_entry_ignores_first_witness :
  rebuild_entry ("trunk", JString "junk|root|grp") unbound Demo.with_trunk
  = rebuild_entry ("trunk", JString "|root|grp") unbound Demo.with_trunk.
Proof.
  apply (rebuild_entry_ignores_first "trunk" "junk" "root|grp").
  intros Hocc. apply occurs_occursb in Hocc. vm_compute in Hocc. discriminate.
Defined.

Lemma export_spares_obj_file_witness :
  abc_file_of "/d/obj/a.obj" <> "/d/obj/a.obj"
  /\ fst (export_asset_abc "/d/obj/a.obj" "root" Demo.fresh) = inr "/d/abc/a.abc".
Proof.
  destruct (export_spares_obj_file "/d/obj/a.obj" "root" Demo.fresh)
    as [Hne [_ Hret]].
  { exists "a", "". reflexivity. }
  split; [exact Hne |].
  rewrite Hret; [reflexivity | vm_compute; discriminate].
Defined.

Lemma export_beside_obj_file_witness :
  fst (export_asset_abc "/d/models/a.obj" "root" Demo.fresh)
  = inr "/d/models/a.abc".
Proof.
  assert (Hdir : PyStr.dirname "/d/models/a.obj" <> "")
    by (vm_compute; discriminate).
  assert (Hno : ~ occurs "obj" (PyStr.dirname "/d/models/a.obj")).
  { intros Hocc. apply occurs_occursb in Hocc. vm_compute in Hocc. discriminate. }
  destruct (export_beside_obj_file "/d/models/a.obj" "root" Demo.fresh Hdir Hno)
    as [Hpath _].
  rewrite Hpath. reflexivity.
Defined.

Lemma sidecar_is_obj_file_witness :
  PyStr.replace "/d/a.OBJ" ".obj" ".hier" = "/d/a.OBJ"
  /\ fst (rebuild_asset_hierarchy Demo.island "/d/a.OBJ" Demo.fresh) = inl IOError.
Proof.
  assert (Hno : ~ occurs ".obj" "/d/a.OBJ").
  { intros Hocc. apply occurs_occursb in Hocc. vm_compute in Hocc. discriminate. }
  destruct (sidecar_is_obj_file Demo.island "/d/a.OBJ" Demo.fresh)
    as [[_ Hsame] Hopen].
  split; [exact (Hsame Hno) |].
  destruct (Hopen Hno) as [_ Hraise]. apply Hraise. reflexivity.
Defined.

Lemma main_one_job_per_file_witness :
  exists tr handled rest,
    log (snd (main Demo.grove Demo.fresh)) = log Demo.fresh ++ tr
    /\ discovered Demo.grove (PyStr.path_join root_dir "obj") ["tree"]
       = handled ++ rest
    /\ Forall2 job_for handled (abc_jobs tr)
    /\ (fst (main Demo.grove Demo.fresh) = inr tt -> rest = []).
Proof.
  apply (main_one_job_per_file Demo.grove Demo.fresh ["tree"]).
  reflexivity.
Defined.

Example main_grove_outcome : fst (main Demo.grove Demo.fresh) = inr tt.
Proof. vm_compute. reflexivity. Qed.

Lemma rebuild_entry_on_built_path_witness :
  let r := rebuild_entry ("crown", JString "|root|grp") unbound Demo.settled in
  fst r = inr {| model_node := Some (PyNodeObj "crown");
                 root_par_node := Some "root" |}
  /\ scene (snd r) = <["crown" := Some "grp"]> (scene Demo.settled).
Proof.
  apply (rebuild_entry_on_built_path "crown" "|root|grp" unbound Demo.settled
           "root" ["grp"]).
  - reflexivity.
  - exists None. vm_compute. reflexivity.
  - intros p c [l1 [l2 H]].
    destruct l1 as [| x [| y [| z l1]]]; inversion H; subst.
    vm_compute. reflexivity.
  - exists None. vm_compute. reflexivity.
Defined.

Lemma ingest_keeps_imported_nodes_witness :
  present "crown"
    (snd (ingest Demo.island (Demo.obj_dir +:+ "/tree/tree.obj") tt Demo.fresh)).
Proof.
  apply (ingest_keeps_imported_nodes Demo.island
           (Demo.obj_dir +:+ "/tree/tree.obj") Demo.fresh "crown").
  vm_compute. auto.
Defined.

Lemma export_asset_abc_one_job_witness :
  abc_jobs (log (snd (export_asset_abc "/d/obj/a.obj" "root" Demo.fresh)))
  = ["-frameRange 1 1 -uvWrite -worldSpace -writeUVSets -dataFormat ogawa"
     +:+ " -root |root -file /d/abc/a.abc"]
  /\ fst (export_asset_abc "a.obj" "root" Demo.fresh) = inl OSError.
Proof.
  destruct (export_asset_abc_one_job "/d/obj/a.obj" "root" Demo.fresh)
    as [Hjob _].
  destruct (export_asset_abc_one_job "a.obj" "root" Demo.fresh)
    as [_ [Hnone _]].
  split.
  - rewrite Hjob; [reflexivity | vm_compute; discriminate].
  - apply Hnone. reflexivity.
Defined.

(** The exporter is not invoked for every OBJ file, and there is no one
    argument string for all calls: it holds the root and the file of the
    export. *)
Lemma export_job_not_fixed :
  abc_jobs (log (snd (export_asset_abc "a.obj" "root" Demo.fresh))) = []
  /\ abc_jobs (log (snd (export_asset_abc "/d/obj/a.obj" "root" Demo.fresh)))
     <> abc_jobs (log (snd (export_asset_abc "/d/obj/b.obj" "root" Demo.fresh)))
  /\ ~ (exists arg, forall obj_file root_node w,
          abc_jobs (log (snd (export_asset_abc obj_file root_node w)))
          = abc_jobs (log w) ++ [arg]).
Proof.
  split; [reflexivity |]. split.
  - vm_compute. discriminate.
  - intros [arg H]. specialize (H "a.obj" "root" Demo.fresh).
    vm_compute in H. discriminate.
Qed.

Lemma main_stages_witness :
  let obj_files := discovered Demo.island Demo.obj_dir ["tree"; "rock"] in
  main Demo.island Demo.fresh = handled_files Demo.island obj_files Demo.fresh
  /\ exists done obj_file behind w1,
       obj_files = done ++ obj_file :: behind
       /\ handled_files Demo.island done Demo.fresh = (inr tt, w1)
       /\ handled_file Demo.island obj_file w1
          = (inl UnboundLocalError, snd (main Demo.island Demo.fresh)).
Proof.
  pose proof (main_stages Demo.island Demo.fresh) as H.
  change (listdir Demo.island (PyStr.path_join root_dir "obj"))
    with (@inr exn _ ["tree"; "rock"]) in H.
  cbv beta iota zeta in H. destruct H as [_ [Heq [_ Hstop]]].
  intros obj_files. split; [exact Heq |].
  apply Hstop. vm_compute. reflexivity.
Defined.

(** On the small dataset four OBJ files are discovered; the rebuilding
    of the third raises, so the fourth is never imported and only two
    caches are exported: not every discovered file goes through the
    stages. *)
Lemma main_island_leaves_files :
  let obj_files := discovered Demo.island Demo.obj_dir ["tree"; "rock"] in
  let tr := log (snd (main Demo.island Demo.fresh)) in
  In (Demo.obj_dir +:+ "/rock/rock_b.obj") obj_files
  /\ fst (main Demo.island Demo.fresh) = inl UnboundLocalError
  /\ length obj_files = 4
  /\ length (abc_jobs tr) = 2
  /\ ~ In (EvImportFile (Demo.obj_dir +:+ "/rock/rock_b.obj")) tr
  /\ ~ (forall obj_file, In obj_file obj_files ->
          In (EvImportFile obj_file) tr
          /\ exists job, job_for obj_file job /\ In job (abc_jobs tr)).
Proof.
  intros obj_files tr.
  assert (Hin : In (Demo.obj_dir +:+ "/rock/rock_b.obj") obj_files).
  { vm_compute. auto. }
  assert (Hnot : ~ In (EvImportFile (Demo.obj_dir +:+ "/rock/rock_b.obj")) tr).
  { intros H. vm_compute in H.
    repeat (destruct H as [H | H]; [discriminate |]). exact H. }
  split; [exact Hin |]. split; [vm_compute; reflexivity |].
  split; [vm_compute; reflexivity |]. split; [vm_compute; reflexivity |].
  split; [exact Hnot |].
  intros Hall. destruct (Hall _ Hin) as [Himp _]. now apply Hnot.
Qed.

Lemma export_asset_abc_path_witness :
  fst (export_asset_abc "/d/obj/tree/a.obj" "root" Demo.fresh)
  = inr "/d/abc/tree/a.abc"
  /\ PyStr.dirname "/d/obj/tree/a.obj" = "/d/obj/tree"
  /\ PyStr.basename "/d/obj/tree/a.obj" = "a.obj".
Proof.
  assert (Hdir : PyStr.dirname "/d/obj/tree/a.obj" <> "")
    by (vm_compute; discriminate).
  destruct (export_asset_abc_path "/d/obj/tree/a.obj" "root" Demo.fresh Hdir)
    as [d [n [Hd [Hn [[Hret _] Hshape]]]]].
  destruct (Hshape "/d/obj/tree" "a.obj") as [Hdn [Hbn _]];
    [reflexivity | discriminate | reflexivity | reflexivity |].
  split; [| now split].
  apply rewritten_replace in Hd; [| discriminate].
  apply rewritten_replace in Hn; [| discriminate].
  rewrite Hret, Hd, Hn. reflexivity.
Defined.

(** For an OBJ path without a directory part nothing is returned,
    created or exported: [os.makedirs] raises on the empty path. *)
Lemma export_without_directory :
  fst (export_asset_abc "a.obj" "root" Demo.fresh) = inl OSError
  /\ log (snd (export_asset_abc "a.obj" "root" Demo.fresh))
     = [EvMakeDirsError ""]
  /\ dirs (snd (export_asset_abc "a.obj" "root" Demo.fresh)) = dirs Demo.fresh
  /\ ~ (forall obj_file root_node w,
          exists p, fst (export_asset_abc obj_file root_node w) = inr p).
Proof.
  split; [reflexivity |]. split; [reflexivity |]. split; [reflexivity |].
  intros H. destruct (H "a.obj" "root" Demo.fresh) as [p Hp]. discriminate.
Qed.

End MoreOnTheIsland.
